(** * CRT audio oscilloscope: settings store, device selection, capture
      callback, hand-off queue and session

    A shallow embedding of [crt_audio_oscilloscope.py].  The Python
    functions become Rocq functions of the same name; file system, console
    and display effects are threaded through an explicit [world] by a small
    state-and-exception monad.  Floating-point values are IEEE 754 values of
    the Standard Library's [spec_float]. *)

From Stdlib Require Import ZArith List Sorted Ascii String Bool Lia SpecFloat.
Import ListNotations.
Local Open Scope string_scope.
Local Open Scope Z_scope.
Set Warnings "-register-all".

(** ** Floating point *)

(** The two formats that occur: Python's [float] is binary64; the blocks
    delivered by the audio stream are NumPy arrays, whose arithmetic runs in
    float32 or float64 depending on the promotion rules in force. *)
Inductive dtype := float32 | float64.

Definition prec (dt : dtype) : Z :=
  match dt with float32 => 24 | float64 => 53 end.

Definition emax (dt : dtype) : Z :=
  match dt with float32 => 128 | float64 => 1024 end.

Definition is_nan (x : spec_float) : bool :=
  match x with S754_nan => true | _ => false end.

(** Conversion of a float to the format [dt], rounding to nearest even. *)
Definition np_cast (dt : dtype) (x : spec_float) : spec_float :=
  match x with
  | S754_finite s m e => binary_round (prec dt) (emax dt) s m e
  | _ => x
  end.

(** Conversion of an integer literal to the format [dt]. *)
Definition np_of_int (dt : dtype) (n : Z) : spec_float :=
  binary_normalize (prec dt) (emax dt) n 0 false.

Definition np_mul (dt : dtype) (x y : spec_float) : spec_float :=
  SFmul (prec dt) (emax dt) x y.

(** NumPy's element-wise maximum and minimum as used by [np.clip]: a NaN
    first operand is returned as it is, otherwise the operands are compared
    with [>] (resp. [<]). *)
Definition npy_max (a b : spec_float) : spec_float :=
  if is_nan a then a else if SFltb b a then a else b.

Definition npy_min (a b : spec_float) : spec_float :=
  if is_nan a then a else if SFltb a b then a else b.

(** [np.clip(x, lo, hi)] is [minimum(maximum(x, lo), hi)]. *)
Definition np_clip (x lo hi : spec_float) : spec_float :=
  npy_min (npy_max x lo) hi.

(** binary64 literals of the program. *)
Definition f64_0_0 : spec_float := S754_zero false.
Definition f64_1_0 : spec_float := S754_finite false 4503599627370496 (-52).
Definition f64_0_8 : spec_float := S754_finite false 7205759403792794 (-53).
Definition f64_44100 : spec_float := S754_finite false 6061057848115200 (-37).

(** The slider ranges, [Slider(.., 0.5, 50.0, ..)] and
    [Slider(.., 0.0, 0.99, ..)]. *)
Definition f64_0_5 : spec_float := S754_finite false 4503599627370496 (-53).
Definition f64_50_0 : spec_float := S754_finite false 7036874417766400 (-47).
Definition f64_0_99 : spec_float := S754_finite false 8917127262193582 (-53).

(** Literals of the capture scenario. *)
Definition f64_2_0 : spec_float := S754_finite false 4503599627370496 (-51).
Definition f64_0_6 : spec_float := S754_finite false 5404319552844595 (-53).
Definition f64_0_3 : spec_float := S754_finite false 5404319552844595 (-54).

(** The value of a float when it is an integer ([None] for NaN, the
    infinities and fractional values); Python compares an [int] with a
    [float] exactly. *)
Definition SF_to_Z_exact (f : spec_float) : option Z :=
  match f with
  | S754_zero _ => Some 0
  | S754_finite s m e =>
      if 0 <=? e then Some (cond_Zopp s (Zpos m * 2 ^ e))
      else if (Zpos m) mod (2 ^ (- e)) =? 0
           then Some (cond_Zopp s (Zpos m / 2 ^ (- e)))
           else None
  | _ => None
  end.

Definition int_float_eq (n : Z) (f : spec_float) : bool :=
  match SF_to_Z_exact f with
  | Some k => n =? k
  | None => false
  end.

(** ** Python values and exceptions *)

(** The values a JSON document decodes to. *)
Inductive pyval :=
  | PNone
  | PBool (b : bool)
  | PInt (n : Z)
  | PFloat (f : spec_float)
  | PStr (s : string)
  | PList (l : list pyval)
  | PDict (kvs : list (string * pyval)).

(** Exceptions; all of them are subclasses of [Exception]. *)
Inductive exn :=
  | JSONDecodeError
  | AttributeError
  | TypeError
  | ValueError
  | OverflowError
  | OSError
  | EOFError
  | RuntimeError
  | PortAudioError.

Inductive result (A : Type) :=
  | Ok (a : A)
  | Raise (e : exn).
Arguments Ok {A} a.
Arguments Raise {A} e.

Fixpoint assoc (k : string) (kvs : list (string * pyval)) : option pyval :=
  match kvs with
  | [] => None
  | (k', v) :: rest => if String.eqb k k' then Some v else assoc k rest
  end.

(** Python's [==]. *)
Fixpoint py_eq (a b : pyval) {struct a} : bool :=
  match a, b with
  | PNone, PNone => true
  | PBool x, PBool y => Bool.eqb x y
  | PBool x, PInt n => Z.b2z x =? n
  | PInt n, PBool x => n =? Z.b2z x
  | PInt n, PInt m => n =? m
  | PInt n, PFloat f => int_float_eq n f
  | PFloat f, PInt n => int_float_eq n f
  | PBool x, PFloat f => int_float_eq (Z.b2z x) f
  | PFloat f, PBool x => int_float_eq (Z.b2z x) f
  | PFloat f, PFloat g => SFeqb f g
  | PStr s, PStr t => String.eqb s t
  | PList l, PList m =>
      (fix all2 (l m : list pyval) {struct l} : bool :=
         match l, m with
         | [], [] => true
         | x :: l', y :: m' => py_eq x y && all2 l' m'
         | _, _ => false
         end) l m
  | PDict k, PDict m =>
      Nat.eqb (List.length k) (List.length m) &&
      (fix sub (k : list (string * pyval)) {struct k} : bool :=
         match k with
         | [] => true
         | (key, v) :: k' =>
             match assoc key m with
             | Some v' => py_eq v v'
             | None => false
             end && sub k'
         end) k
  | _, _ => false
  end.

(** [float(n)] for an [int]: correctly rounded, [OverflowError] when the
    integer is too large for a binary64. *)
Definition float_of_int (n : Z) : result spec_float :=
  match binary_normalize 53 1024 n 0 false with
  | S754_infinity _ => Raise OverflowError
  | f => Ok f
  end.

(** ** The world around the program *)

(** An entry of the audio subsystem's device table, [sd.query_devices()]. *)
Record device := {
  name : string;
  max_input_channels : Z
}.

(** What [CONFIG_FILE] holds: a JSON document, given as the value
    [json.load] decodes it to, or something that cannot be opened or
    decoded, given as the exception raised. *)
Inductive content :=
  | Unreadable (e : exn)
  | Doc (j : pyval).

(** One audio block: the samples of the first channel. *)
Definition block := list spec_float.

(** A frame delivered by the input stream: the sample of channel 0 and the
    samples of further channels (none, the stream is opened with
    [channels=1]). *)
Definition frame := (spec_float * list spec_float)%type.

(** What the operator and the display see, in order. *)
Inductive event :=
  | MsgLoadError (e : exn)
  | MsgCorruptRemoved
  | MsgSaved
  | MsgSaveError (e : exn)
  | MsgUsingSaved (v : pyval)
  | MsgAvailable
  | MsgDevice (idx : Z) (nm : string)
  | Prompt (default : Z)
  | MsgInvalidInput
  | MsgDeviceInfoError (e : exn)
  | MsgStarting
  | MsgStreamError (e : exn)
  | MsgTryDifferent
  | MsgStatus
  | MsgNoAudio
  | ShowWindow
  | Draw (waveform : block).

(** What happens while the window is open, serialised: the audio thread
    calls the capture callback, a slider is moved, or the render loop runs
    one iteration. *)
Inductive ui_event :=
  | AudioIn (indata : list frame) (status : bool)
  | GainSlider (val : spec_float)
  | SmoothSlider (val : spec_float)
  | RenderTick.

Record world := {
  config_file : option content;   (* CONFIG_FILE, when it exists *)
  writable : bool;                (* can CONFIG_FILE be written *)
  removable : bool;               (* can CONFIG_FILE be removed *)
  devices : list device;          (* sd.query_devices() *)
  device_info : result spec_float;(* default sample rate query *)
  stream_error : option exn;      (* does sd.InputStream(...) raise *)
  session : list ui_event;        (* until the window is closed *)
  stdin : list string;            (* lines the operator will type *)
  trace : list event              (* output so far *)
}.

Definition set_config_file (c : option content) (w : world) : world :=
  {| config_file := c; writable := writable w; removable := removable w;
     devices := devices w; device_info := device_info w;
     stream_error := stream_error w; session := session w;
     stdin := stdin w; trace := trace w |}.

Definition set_stdin (l : list string) (w : world) : world :=
  {| config_file := config_file w; writable := writable w;
     removable := removable w; devices := devices w;
     device_info := device_info w; stream_error := stream_error w;
     session := session w; stdin := l; trace := trace w |}.

Definition emit (evs : list event) (w : world) : world :=
  {| config_file := config_file w; writable := writable w;
     removable := removable w; devices := devices w;
     device_info := device_info w; stream_error := stream_error w;
     session := session w; stdin := stdin w; trace := trace w ++ evs |}.

(** ** State and exception monad *)

Definition M (A : Type) : Type := world -> result A * world.

Definition ret {A} (a : A) : M A := fun w => (Ok a, w).

Definition raise {A} (e : exn) : M A := fun w => (Raise e, w).

Definition bind {A B} (m : M A) (k : A -> M B) : M B :=
  fun w =>
    match m w with
    | (Ok a, w') => k a w'
    | (Raise e, w') => (Raise e, w')
    end.

(** [try: m  except Exception as e: h e] *)
Definition try_except {A} (m : M A) (h : exn -> M A) : M A :=
  fun w =>
    match m w with
    | (Ok a, w') => (Ok a, w')
    | (Raise e, w') => h e w'
    end.

Definition lift {A} (r : result A) : M A := fun w => (r, w).

Definition print (ev : event) : M unit := fun w => (Ok tt, emit [ev] w).

Notation "x <- c1 ;; c2" := (bind c1 (fun x => c2))
  (at level 61, c1 at next level, right associativity).
Notation "c1 ;; c2" := (bind c1 (fun _ => c2))
  (at level 61, right associativity).

(** ** File operations on [CONFIG_FILE] *)

Definition os_path_exists : M bool :=
  fun w => (Ok (match config_file w with Some _ => true | None => false end), w).

(** [with open(CONFIG_FILE, "r") as f: json.load(f)] *)
Definition read_json : M pyval :=
  fun w =>
    match config_file w with
    | Some (Doc j) => (Ok j, w)
    | Some (Unreadable e) => (Raise e, w)
    | None => (Raise OSError, w)
    end.

(** [with open(CONFIG_FILE, "w") as f: json.dump(j, f)] *)
Definition write_json (j : pyval) : M unit :=
  fun w =>
    if writable w then (Ok tt, set_config_file (Some (Doc j)) w)
    else (Raise OSError, w).

(** [os.remove(CONFIG_FILE)] *)
Definition os_remove : M unit :=
  fun w =>
    match config_file w with
    | Some _ =>
        if removable w then (Ok tt, set_config_file None w)
        else (Raise OSError, w)
    | None => (Raise OSError, w)
    end.

(** ** Settings *)

(** The dictionary with the three keys that [load_config] returns and
    [save_config] is called with; the empty dictionary [{}] is [None]. *)
Record settings := {
  device_index : pyval;
  gain : spec_float;
  smoothing : spec_float
}.

Definition config := option settings.

(** [self.config.get("device_index")] *)
Definition config_get_device_index (c : config) : pyval :=
  match c with Some s => device_index s | None => PNone end.

(** [self.config.get("gain", 1.0)] *)
Definition config_get_gain (c : config) : spec_float :=
  match c with Some s => gain s | None => f64_1_0 end.

(** [self.config.get("smoothing", 0.8)] *)
Definition config_get_smoothing (c : config) : spec_float :=
  match c with Some s => smoothing s | None => f64_0_8 end.

(** [doc.get(k, dflt)]: only a dictionary has the method. *)
Definition dict_get (doc : pyval) (k : string) (dflt : pyval) : result pyval :=
  match doc with
  | PDict kvs => Ok (match assoc k kvs with Some v => v | None => dflt end)
  | _ => Raise AttributeError
  end.

Definition enumerate_from {A} : Z -> list A -> list (Z * A) :=
  fix go (i : Z) (l : list A) : list (Z * A) :=
    match l with
    | [] => []
    | x :: r => (i, x) :: go (i + 1) r
    end.

(** [[(i, d["name"]) for i, d in enumerate(sd.query_devices())
      if d["max_input_channels"] > 0]] *)
Definition valid_devices (ds : list device) : list (Z * string) :=
  map (fun p => (fst p, name (snd p)))
      (filter (fun p => 0 <? max_input_channels (snd p)) (enumerate_from 0 ds)).

(** [any(v == dev[0] for dev in valid)] *)
Definition any_eq (v : pyval) (valid : list (Z * string)) : bool :=
  existsb (fun dev => py_eq v (PInt (fst dev))) valid.

Definition is_none (v : pyval) : bool :=
  match v with PNone => true | _ => false end.

(** ** The hand-off queue, [queue.Queue] *)

Record Queue := {
  maxsize : Z;
  items : list block
}.

Definition Queue_new (n : Z) : Queue := {| maxsize := n; items := [] |}.

Definition qsize (q : Queue) : Z := Z.of_nat (List.length (items q)).

(** [q.put_nowait(x)]; [None] is the exception [queue.Full]. *)
Definition put_nowait (q : Queue) (x : block) : option Queue :=
  if (0 <? maxsize q) && (maxsize q <=? qsize q) then None
  else Some {| maxsize := maxsize q; items := items q ++ [x] |}.

(** [q.get(timeout=...)]; [None] is the exception [queue.Empty]. *)
Definition get (q : Queue) : option (block * Queue) :=
  match items q with
  | [] => None
  | x :: rest => Some (x, {| maxsize := maxsize q; items := rest |})
  end.

(** ** The gain stage of the capture callback *)

(** [np.clip(x, -1, 1)] on one sample, computed in the format [d]. *)
Definition clamp (d : dtype) (x : spec_float) : spec_float :=
  np_clip x (np_of_int d (-1)) (np_of_int d 1).

(** The sample stored for a raw sample [s] under gain [g]:
    [np.clip(s * g, -1, 1)]. *)
Definition stored_sample (d : dtype) (g s : spec_float) : spec_float :=
  clamp d (np_mul d s (np_cast d g)).

(** [-1 <= x <= 1] *)
Definition in_unit_range (d : dtype) (x : spec_float) : bool :=
  SFleb (np_of_int d (-1)) x && SFleb x (np_of_int d 1).

(** ** Decimal literals

    Readers of plain decimal integer literals (an optional minus sign and
    ASCII digits).  [int(str)] and [float(str)] accept more than these; the
    program is defined, and the theorems are proved, for every reader, and
    these two serve where a run on sample data needs one. *)

Definition digit_of (c : ascii) : option Z :=
  let n := Z.of_nat (nat_of_ascii c) in
  if (48 <=? n) && (n <=? 57) then Some (n - 48) else None.

Fixpoint digits_value (acc : Z) (s : string) : option Z :=
  match s with
  | EmptyString => Some acc
  | String c r =>
      match digit_of c with
      | Some d => digits_value (10 * acc + d) r
      | None => None
      end
  end.

Definition decimal_int (s : string) : option Z :=
  match s with
  | EmptyString => None
  | String "-"%char EmptyString => None
  | String "-"%char r => option_map Z.opp (digits_value 0 r)
  | _ => digits_value 0 s
  end.

Definition decimal_float (s : string) : option spec_float :=
  match decimal_int s with
  | Some n => match float_of_int n with Ok f => Some f | Raise _ => None end
  | None => None
  end.

Section Program.

(** Python's [float(str)] and [int(str)], [None] for [ValueError]. *)
Variable float_of_str : string -> option spec_float.
Variable int_of_str : string -> option Z.

(** The format in which NumPy computes [data * self.gain]. *)
Variable dt : dtype.

(** [float(v)] *)
Definition py_float (v : pyval) : result spec_float :=
  match v with
  | PFloat f => Ok f
  | PInt n => float_of_int n
  | PBool b => Ok (if b then f64_1_0 else f64_0_0)
  | PStr s =>
      match float_of_str s with
      | Some f => Ok f
      | None => Raise ValueError
      end
  | PNone | PList _ | PDict _ => Raise TypeError
  end.

(** ** [load_config] and [save_config] *)

(** The body of the [try] in [load_config]. *)
Definition read_settings : M config :=
  cfg <- read_json ;;
  d <- lift (dict_get cfg "device_index" (PInt 0)) ;;
  g <- lift (dict_get cfg "gain" (PFloat f64_1_0)) ;;
  g <- lift (py_float g) ;;
  s <- lift (dict_get cfg "smoothing" (PFloat f64_0_8)) ;;
  s <- lift (py_float s) ;;
  ret (Some {| device_index := d; gain := g; smoothing := s |}).

Definition load_config : M config :=
  ex <- os_path_exists ;;
  if ex : bool then
    try_except read_settings
      (fun e =>
         print (MsgLoadError e) ;;
         os_remove ;;
         print MsgCorruptRemoved ;;
         ret None)
  else ret None.

(** The argument is the three-key dictionary built at both call sites from
    [self.device], [float(self.gain)] and [float(self.smoothing)]; on the
    floats it holds, the inner [float(...)] is the identity. *)
Definition save_config (c : settings) : M unit :=
  try_except
    (write_json (PDict [("device_index", device_index c);
                        ("gain", PFloat (gain c));
                        ("smoothing", PFloat (smoothing c))]) ;;
     print MsgSaved)
    (fun e => print (MsgSaveError e)).

(** ** [get_device] *)

(** The [while True] loop.  It reads the operator's lines one by one; at the
    end of the input [input()] raises [EOFError], which the loop does not
    catch. *)
Fixpoint select_loop (valid : list (Z * string)) (d0 : Z)
    (lines : list string) (w : world) : result pyval * world :=
  match lines with
  | [] => (Raise EOFError, emit [Prompt d0] w)
  | line :: rest =>
      let w1 := set_stdin rest (emit [Prompt d0] w) in
      match (if String.eqb line "" then Some d0 else int_of_str line) with
      | Some selected =>
          if any_eq (PInt selected) valid then (Ok (PInt selected), w1)
          else select_loop valid d0 rest w1
      | None => select_loop valid d0 rest (emit [MsgInvalidInput] w1)
      end
  end.

Definition get_device (saved_device : pyval) : M pyval :=
  fun w =>
    let valid := valid_devices (devices w) in
    match valid with
    | [] => (Raise RuntimeError, w)
    | (d0, _) :: _ =>
        if negb (is_none saved_device) && any_eq saved_device valid
        then (Ok saved_device, emit [MsgUsingSaved saved_device] w)
        else
          select_loop valid d0 (stdin w)
            (emit (MsgAvailable :: map (fun p => MsgDevice (fst p) (snd p)) valid) w)
    end.

(** ** [CRT_Oscilloscope] *)

Record scope := {
  self_block_size : Z;
  self_config : config;
  self_device : pyval;
  self_fs : spec_float;
  self_gain : spec_float;
  self_smoothing : spec_float;
  self_audio_queue : Queue
}.

Definition set_gain (g : spec_float) (self : scope) : scope :=
  {| self_block_size := self_block_size self; self_config := self_config self;
     self_device := self_device self; self_fs := self_fs self;
     self_gain := g; self_smoothing := self_smoothing self;
     self_audio_queue := self_audio_queue self |}.

Definition set_smoothing (s : spec_float) (self : scope) : scope :=
  {| self_block_size := self_block_size self; self_config := self_config self;
     self_device := self_device self; self_fs := self_fs self;
     self_gain := self_gain self; self_smoothing := s;
     self_audio_queue := self_audio_queue self |}.

Definition set_audio_queue (q : Queue) (self : scope) : scope :=
  {| self_block_size := self_block_size self; self_config := self_config self;
     self_device := self_device self; self_fs := self_fs self;
     self_gain := self_gain self; self_smoothing := self_smoothing self;
     self_audio_queue := q |}.

(** [sd.query_devices(self.device, "input")["default_samplerate"]] *)
Definition query_samplerate : M spec_float := fun w => (device_info w, w).

(** [__init__] from the loading of the settings to the creation of the
    queue (lines 71 to 86).  The construction of the figure and its sliders
    that follows is not part of this definition: it changes none of the
    fields below, but it can raise (a NaN gain is refused by the slider),
    and then [__init__] raises where this definition returns. *)
Definition CRT_Oscilloscope_init (block_size : Z) : M scope :=
  cfg <- load_config ;;
  dev <- get_device (config_get_device_index cfg) ;;
  fs <- try_except query_samplerate
          (fun e => print (MsgDeviceInfoError e) ;; ret f64_44100) ;;
  ret {| self_block_size := block_size; self_config := cfg;
         self_device := dev; self_fs := fs;
         self_gain := config_get_gain cfg;
         self_smoothing := config_get_smoothing cfg;
         self_audio_queue := Queue_new 10 |}.

Definition save_state (self : scope) : M unit :=
  save_config {| device_index := self_device self;
                 gain := self_gain self;
                 smoothing := self_smoothing self |}.

Definition update_gain (self : scope) (val : spec_float) : M scope :=
  let self := set_gain val self in
  save_state self ;; ret self.

Definition update_smoothing (self : scope) (val : spec_float) : M scope :=
  let self := set_smoothing val self in
  save_state self ;; ret self.

(** The samples of [indata] are taken in the format [dt] of the
    computation and the gain, a Python [float], is converted to it. *)
Definition audio_callback (self : scope) (indata : list frame)
    (status : bool) : M scope :=
  (if status then print MsgStatus else ret tt) ;;
  if Nat.eqb (List.length indata) 0 then
    print MsgNoAudio ;; ret self
  else
    let data := map fst indata in
    let data := map (stored_sample dt (self_gain self)) data in
    match put_nowait (self_audio_queue self) data with
    | Some q => ret (set_audio_queue q self)
    | None => ret self
    end.

(** The [while plt.fignum_exists(...)] loop together with what the audio
    thread and the sliders do meanwhile; the window is closed when the
    events are used up. *)
Fixpoint render_loop (self : scope) (evs : list ui_event) : M scope :=
  match evs with
  | [] => ret self
  | AudioIn indata status :: rest =>
      self <- audio_callback self indata status ;;
      render_loop self rest
  | GainSlider val :: rest =>
      self <- update_gain self val ;;
      render_loop self rest
  | SmoothSlider val :: rest =>
      self <- update_smoothing self val ;;
      render_loop self rest
  | RenderTick :: rest =>
      match get (self_audio_queue self) with
      | Some (new_waveform, q) =>
          print (Draw new_waveform) ;;
          render_loop (set_audio_queue q self) rest
      | None => render_loop self rest
      end
  end.

(** [sd.InputStream(...)] *)
Definition open_stream : M unit :=
  fun w =>
    match stream_error w with
    | Some e => (Raise e, w)
    | None => (Ok tt, w)
    end.

(** [run].  The handler of the [try] is reached only when [sd.InputStream]
    raised, with the object as it was: nothing in [render_loop] raises. *)
Definition run (self : scope) : M scope :=
  print MsgStarting ;;
  self <- try_except
            (open_stream ;;
             print ShowWindow ;;
             fun w => render_loop self (session w) w)
            (fun e =>
               print (MsgStreamError e) ;;
               print MsgTryDifferent ;;
               ret self) ;;
  save_config {| device_index := self_device self;
                 gain := self_gain self;
                 smoothing := self_smoothing self |} ;;
  ret self.

(** ** Observations used in the statements *)

Definition raises {A} (r : result A * world) : bool :=
  match fst r with Raise _ => true | Ok _ => false end.

Definition file_exists (w : world) : bool :=
  match config_file w with Some _ => true | None => false end.

(** Python's [==] on the dictionaries of settings. *)
Definition settings_py_eq (a b : settings) : bool :=
  py_eq (device_index a) (device_index b)
  && SFeqb (gain a) (gain b)
  && SFeqb (smoothing a) (smoothing b).

Definition config_py_eq (a b : config) : bool :=
  match a, b with
  | None, None => true
  | Some x, Some y => settings_py_eq x y
  | _, _ => false
  end.

(** The calls of [save_config] show in the trace: each prints one of its
    two messages. *)
Definition is_save_event (ev : event) : bool :=
  match ev with
  | MsgSaved | MsgSaveError _ => true
  | _ => false
  end.

Definition is_display_event (ev : event) : bool :=
  match ev with ShowWindow | Draw _ => true | _ => false end.

(** The block the capture callback builds from a delivery under gain [g]. *)
Definition gained_block (g : spec_float) (indata : list frame) : block :=
  map (stored_sample dt g) (map fst indata).

(** The capacity invariant of the hand-off queue. *)
Definition queue_ok (q : Queue) : Prop :=
  maxsize q = 10 /\ qsize q <= 10.

(** The capture callback called once for each delivery, with nothing else
    happening in between. *)
Definition deliveries (ins : list (list frame)) : list ui_event :=
  map (fun indata => AudioIn indata false) ins.

(** Can [float(v)] be computed. *)
Definition coerces (v : pyval) : bool :=
  match py_float v with Ok _ => true | Raise _ => false end.

(** The contents on which the body of the [try] in [load_config] raises:
    what cannot be opened or decoded, a document that is not an object, and
    an object whose [gain] or [smoothing] is not a number. *)
Definition malformed (c : content) : bool :=
  match c with
  | Unreadable _ => true
  | Doc (PDict kvs) =>
      negb (coerces (match assoc "gain" kvs with
                     | Some v => v
                     | None => PFloat f64_1_0
                     end))
      || negb (coerces (match assoc "smoothing" kvs with
                        | Some v => v
                        | None => PFloat f64_0_8
                        end))
  | Doc _ => true
  end.

(** ** Sample data *)

Definition sample_devices : list device :=
  [ {| name := "Speakers"; max_input_channels := 0 |};
    {| name := "Microphone"; max_input_channels := 2 |};
    {| name := "Line In"; max_input_channels := 1 |} ].

Definition sample_world (file : option content) (removable : bool)
    (failure : option exn) (lines : list string) : world :=
  {| config_file := file; writable := true; removable := removable;
     devices := sample_devices; device_info := Ok f64_44100;
     stream_error := failure; session := []; stdin := lines; trace := [] |}.

Definition sample_scope (q : Queue) : scope :=
  {| self_block_size := 2048; self_config := None; self_device := PInt 1;
     self_fs := f64_44100; self_gain := f64_2_0; self_smoothing := f64_0_8;
     self_audio_queue := q |}.

(** A delivery of one frame holding the sample 0.6. *)
Definition sample_indata : list frame := [(f64_0_6, [])].

(** ** Further observations *)

(** Neither NaN nor an infinity. *)
Definition is_finite_or_zero (x : spec_float) : bool :=
  match x with
  | S754_zero _ | S754_finite _ _ _ => true
  | _ => false
  end.

(** What a stored sample can be: NaN, or a value in [-1.0, 1.0]. *)
Definition clamped (d : dtype) (x : spec_float) : bool :=
  is_nan x || in_unit_range d x.

(** The waveforms handed to the display, in order. *)
Definition draws (t : list event) : list block :=
  flat_map (fun ev => match ev with Draw b => [b] | _ => [] end) t.




Definition is_slider (ev : ui_event) : bool :=
  match ev with
  | GainSlider _ | SmoothSlider _ => true
  | _ => false
  end.

(** The value of the last move of the gain slider, [g] when there is
    none; likewise for the smoothing slider. *)
Fixpoint last_gain (g : spec_float) (evs : list ui_event) : spec_float :=
  match evs with
  | [] => g
  | GainSlider val :: rest => last_gain val rest
  | _ :: rest => last_gain g rest
  end.

Fixpoint last_smoothing (s : spec_float) (evs : list ui_event) : spec_float :=
  match evs with
  | [] => s
  | SmoothSlider val :: rest => last_smoothing val rest
  | _ :: rest => last_smoothing s rest
  end.

(** The dictionary [run] and [save_state] pass to [save_config], and the
    document [save_config] writes for it. *)
Definition current_settings (self : scope) : settings :=
  {| device_index := self_device self;
     gain := self_gain self;
     smoothing := self_smoothing self |}.

Definition settings_doc (s : settings) : pyval :=
  PDict [("device_index", device_index s);
         ("gain", PFloat (gain s));
         ("smoothing", PFloat (smoothing s))].

(** The lines the selection loop does not accept: those that are not
    empty and are not read as an index of the eligible set. *)
Definition rejected (valid : list (Z * string)) (line : string) : bool :=
  negb (String.eqb line "")
  && match int_of_str line with
     | Some n => negb (any_eq (PInt n) valid)
     | None => true
     end.

(** The index a line selects, when it is accepted. *)
Definition selects (valid : list (Z * string)) (d0 : Z) (line : string)
    : option Z :=
  match (if String.eqb line "" then Some d0 else int_of_str line) with
  | Some n => if any_eq (PInt n) valid then Some n else None
  | None => None
  end.

(** The events of a rejected line: the prompt, and the message when the
    line is not a number. *)
Definition rejection_events (d0 : Z) (line : string) : list event :=
  match int_of_str line with
  | Some _ => [Prompt d0]
  | None => [Prompt d0; MsgInvalidInput]
  end.

(** One event of a session as a step on the object and the world; the
    render loop is the iteration of this step (lemma [render_loop_steps]). *)
Definition ui_step (self : scope) (w : world) (ev : ui_event) : scope * world :=
  match ev with
  | AudioIn indata status =>
      let w1 := if status then emit [MsgStatus] w else w in
      match indata with
      | [] => (self, emit [MsgNoAudio] w1)
      | _ :: _ =>
          match put_nowait (self_audio_queue self)
                  (gained_block (self_gain self) indata) with
          | Some q => (set_audio_queue q self, w1)
          | None => (self, w1)
          end
      end
  | GainSlider val =>
      (set_gain val self,
       snd (save_config (current_settings (set_gain val self)) w))
  | SmoothSlider val =>
      (set_smoothing val self,
       snd (save_config (current_settings (set_smoothing val self)) w))
  | RenderTick =>
      match get (self_audio_queue self) with
      | Some (b, q) => (set_audio_queue q self, emit [Draw b] w)
      | None => (self, w)
      end
  end.

(** The object and the world after the events [evs]. *)
Definition ui_steps (evs : list ui_event) (self : scope) (w : world)
    : scope * world :=
  fold_left (fun sw ev => ui_step (fst sw) (snd sw) ev) evs (self, w).

(** What a session leaves alone: in the world, everything but the settings
    file and the trace; in the object, everything but gain, smoothing and
    the queue. *)
Definition same_env (w w' : world) : Prop :=
  writable w' = writable w /\ removable w' = removable w
  /\ devices w' = devices w /\ device_info w' = device_info w
  /\ stream_error w' = stream_error w /\ session w' = session w
  /\ stdin w' = stdin w.

Definition same_setup (self self' : scope) : Prop :=
  self_block_size self' = self_block_size self
  /\ self_config self' = self_config self
  /\ self_device self' = self_device self
  /\ self_fs self' = self_fs self.

(** The values Python compares with an [int] by their number. *)
Definition is_number (v : pyval) : bool :=
  match v with
  | PBool _ | PInt _ | PFloat _ => true
  | _ => false
  end.

(** A block as the callback hands it over: not empty, every sample NaN or
    in [-1.0, 1.0]. *)
Definition block_ok (b : block) : Prop :=
  b <> [] /\ Forall (fun x => clamped dt x = true) b.

(** ** Clamping *)

Section Clip.

Variables lo hi : spec_float.
Hypothesis lo_lt_hi : SFltb lo hi = true.
Hypothesis lo_refl : SFleb lo lo = true.
Hypothesis hi_refl : SFleb hi hi = true.

Lemma SFltb_SFleb (a b : spec_float) : SFltb a b = true -> SFleb a b = true.
Proof.
  unfold SFltb, SFleb.
  destruct (SFcompare a b) as [[ | | ] | ]; intro H; try discriminate H; reflexivity.
Qed.

Lemma SFleb_refl_not_lt (a : spec_float) : SFleb a a = true -> SFltb a a = false.
Proof.
  destruct a as [s | s | | s m e]; try (destruct s; intros _; reflexivity).
  - discriminate 1.
  - unfold SFleb, SFltb, SFcompare.
    rewrite Z.compare_refl.
    destruct s; rewrite Pos.compare_cont_refl; reflexivity.
Qed.

Lemma SFleb_not_nan_l (a b : spec_float) : SFleb a b = true -> is_nan a = false.
Proof. destruct a; try reflexivity. discriminate 1. Qed.

Lemma lo_not_nan : is_nan lo = false.
Proof. exact (SFleb_not_nan_l _ _ lo_refl). Qed.

Lemma hi_not_nan : is_nan hi = false.
Proof. exact (SFleb_not_nan_l _ _ hi_refl). Qed.

(** The result of [np_clip] is the argument or one of the bounds. *)
Lemma np_clip_cases (x : spec_float) :
  (np_clip x lo hi = x /\ (is_nan x = true \/ (SFltb lo x = true /\ SFltb x hi = true)))
  \/ (np_clip x lo hi = lo /\ is_nan x = false)
  \/ (np_clip x lo hi = hi /\ is_nan x = false).
Proof.
  unfold np_clip, npy_max.
  destruct (is_nan x) eqn:Hx.
  - left. unfold npy_min. rewrite Hx. auto.
  - destruct (SFltb lo x) eqn:Hlx.
    + unfold npy_min. rewrite Hx.
      destruct (SFltb x hi) eqn:Hxh; auto.
    + right; left. unfold npy_min.
      rewrite lo_not_nan, lo_lt_hi. auto.
Qed.

Lemma np_clip_lo : np_clip lo lo hi = lo.
Proof.
  unfold np_clip, npy_max, npy_min.
  rewrite lo_not_nan, (SFleb_refl_not_lt _ lo_refl), lo_not_nan, lo_lt_hi.
  reflexivity.
Qed.

Lemma np_clip_hi : np_clip hi lo hi = hi.
Proof.
  unfold np_clip, npy_max, npy_min.
  rewrite hi_not_nan, lo_lt_hi, hi_not_nan, (SFleb_refl_not_lt _ hi_refl).
  reflexivity.
Qed.

Lemma np_clip_idempotent (x : spec_float) :
  np_clip (np_clip x lo hi) lo hi = np_clip x lo hi.
Proof.
  destruct (np_clip_cases x) as [[E _] | [[E _] | [E _]]]; rewrite E.
  - exact E.
  - exact np_clip_lo.
  - exact np_clip_hi.
Qed.

Lemma np_clip_bounds (x : spec_float) :
  is_nan x = false ->
  SFleb lo (np_clip x lo hi) && SFleb (np_clip x lo hi) hi = true.
Proof.
  intro Hx.
  destruct (np_clip_cases x) as [[E [N | [H1 H2]]] | [[E _] | [E _]]]; rewrite E.
  - congruence.
  - rewrite (SFltb_SFleb _ _ H1), (SFltb_SFleb _ _ H2). reflexivity.
  - rewrite lo_refl, (SFltb_SFleb _ _ lo_lt_hi). reflexivity.
  - rewrite hi_refl, (SFltb_SFleb _ _ lo_lt_hi). reflexivity.
Qed.

Lemma np_clip_nan : np_clip S754_nan lo hi = S754_nan.
Proof. reflexivity. Qed.

End Clip.

Lemma bounds_lt (d : dtype) : SFltb (np_of_int d (-1)) (np_of_int d 1) = true.
Proof. destruct d; vm_compute; reflexivity. Qed.

Lemma lower_refl (d : dtype) : SFleb (np_of_int d (-1)) (np_of_int d (-1)) = true.
Proof. destruct d; vm_compute; reflexivity. Qed.

Lemma upper_refl (d : dtype) : SFleb (np_of_int d 1) (np_of_int d 1) = true.
Proof. destruct d; vm_compute; reflexivity. Qed.

Lemma clamp_idempotent (d : dtype) (x : spec_float) :
  clamp d (clamp d x) = clamp d x.
Proof.
  unfold clamp.
  apply np_clip_idempotent; [apply bounds_lt | apply lower_refl | apply upper_refl].
Qed.

Lemma clamp_in_unit_range (d : dtype) (x : spec_float) :
  is_nan x = false -> in_unit_range d (clamp d x) = true.
Proof.
  intro Hx. unfold in_unit_range, clamp.
  apply np_clip_bounds; [apply bounds_lt | apply lower_refl | apply upper_refl | exact Hx].
Qed.

Lemma clamp_nan (d : dtype) : clamp d S754_nan = S754_nan.
Proof. reflexivity. Qed.

(** A NaN product is stored as NaN. *)
Lemma stored_sample_nan (d : dtype) (s g : spec_float) :
  is_nan (np_mul d s (np_cast d g)) = true -> stored_sample d g s = S754_nan.
Proof.
  unfold stored_sample. intro H.
  destruct (np_mul d s (np_cast d g)); try discriminate H.
  apply clamp_nan.
Qed.

(** C2 (as amended): for every sample [s] and gain [g] whose product is not
    NaN, the stored value [clamp (s * g)] lies in [-1.0, 1.0]; clamping is
    idempotent for every [x]; with gain 2.0 the raw sample 0.6 is stored as
    1.0 and the raw sample -0.3 as -0.6. *)
Theorem stored_sample_clamped (d : dtype) (s g x : spec_float)
    (Hprod : is_nan (np_mul d s (np_cast d g)) = false) :
  in_unit_range d (stored_sample d g s) = true
  /\ clamp d (clamp d x) = clamp d x
  /\ stored_sample d f64_2_0 (np_cast d f64_0_6) = np_of_int d 1
  /\ stored_sample d f64_2_0 (np_cast d (SFopp f64_0_3)) = np_cast d (SFopp f64_0_6).
Proof.
  split; [| split; [| split]].
  - unfold stored_sample. apply clamp_in_unit_range. exact Hprod.
  - apply clamp_idempotent.
  - destruct d; vm_compute; reflexivity.
  - destruct d; vm_compute; reflexivity.
Qed.

(** ** The settings store *)

Lemma SFeqb_refl (x : spec_float) : is_nan x = false -> SFeqb x x = true.
Proof.
  destruct x as [s | s | | s m e]; intro H; try discriminate H.
  - reflexivity.
  - destruct s; reflexivity.
  - unfold SFeqb, SFcompare. rewrite Z.compare_refl.
    destruct s; rewrite Pos.compare_cont_refl; reflexivity.
Qed.

Lemma SFleb_not_nan_r (a b : spec_float) : SFleb a b = true -> is_nan b = false.
Proof.
  destruct b; try reflexivity.
  destruct a; discriminate 1.
Qed.

Lemma read_settings_world (w : world) : snd (read_settings w) = w.
Proof.
  unfold read_settings, bind, read_json, lift, ret.
  destruct (config_file w) as [[e | j] | ]; try reflexivity.
  destruct (dict_get j "device_index" (PInt 0)); [| reflexivity].
  destruct (dict_get j "gain" (PFloat f64_1_0)) as [g | ]; [| reflexivity].
  destruct (py_float g); [| reflexivity].
  destruct (dict_get j "smoothing" (PFloat f64_0_8)) as [s | ]; [| reflexivity].
  destruct (py_float s); reflexivity.
Qed.

Lemma read_settings_eq (w : world) : read_settings w = (fst (read_settings w), w).
Proof.
  rewrite <- (read_settings_world w) at 3.
  destruct (read_settings w); reflexivity.
Qed.

Lemma load_config_absent (w : world) :
  config_file w = None -> load_config w = (Ok None, w).
Proof.
  intro H. unfold load_config, bind, os_path_exists. rewrite H. reflexivity.
Qed.

Lemma load_config_ok (w : world) (c : config) :
  file_exists w = true -> fst (read_settings w) = Ok c ->
  load_config w = (Ok c, w).
Proof.
  unfold file_exists. intros Hf Hr.
  unfold load_config, bind, os_path_exists, try_except.
  destruct (config_file w); [| discriminate Hf].
  rewrite (read_settings_eq w), Hr. reflexivity.
Qed.

Lemma load_config_on_corrupt (w : world) (e : exn) :
  file_exists w = true -> fst (read_settings w) = Raise e ->
  load_config w =
    if removable w
    then (Ok None, emit [MsgCorruptRemoved]
                     (set_config_file None (emit [MsgLoadError e] w)))
    else (Raise OSError, emit [MsgLoadError e] w).
Proof.
  unfold file_exists. intros Hf Hr.
  unfold load_config, bind, os_path_exists, try_except.
  destruct (config_file w) as [c | ] eqn:Hc; [| discriminate Hf].
  rewrite (read_settings_eq w), Hr.
  unfold print, os_remove, ret. cbn [config_file emit removable].
  rewrite Hc. destruct (removable w); reflexivity.
Qed.

Lemma save_config_eq (c : settings) (w : world) :
  save_config c w =
    if writable w
    then (Ok tt,
          emit [MsgSaved]
            (set_config_file
               (Some (Doc (PDict [("device_index", device_index c);
                                  ("gain", PFloat (gain c));
                                  ("smoothing", PFloat (smoothing c))]))) w))
    else (Ok tt, emit [MsgSaveError OSError] w).
Proof.
  unfold save_config, try_except, bind, write_json, print.
  destruct (writable w); reflexivity.
Qed.

(** C3: for every valid settings [s] (device index an integer [>= 0], gain
    in [0.5, 50.0], smoothing in [0.0, 0.99]), saving [s] and then loading
    returns [s] unchanged: what [load_config] returns is the dictionary
    that was saved, and Python's [==] holds between the two. *)
Theorem save_load_roundtrip (d : Z) (g sm : spec_float) (w : world)
    (Hd : 0 <= d)
    (Hg_lo : SFleb f64_0_5 g = true) (Hg_hi : SFleb g f64_50_0 = true)
    (Hs_lo : SFleb f64_0_0 sm = true) (Hs_hi : SFleb sm f64_0_99 = true)
    (Hw : writable w = true) :
  let s := {| device_index := PInt d; gain := g; smoothing := sm |} in
  exists (w1 : world) (c : config),
    save_config s w = (Ok tt, w1)
    /\ load_config w1 = (Ok c, w1)
    /\ c = Some s
    /\ config_py_eq c (Some s) = true.
Proof.
  intro s.
  eexists. exists (Some s).
  split; [| split; [| split]].
  - rewrite save_config_eq, Hw. reflexivity.
  - apply load_config_ok; reflexivity.
  - reflexivity.
  - unfold config_py_eq, settings_py_eq, s. cbn [device_index gain smoothing py_eq].
    rewrite Z.eqb_refl.
    rewrite (SFeqb_refl g (SFleb_not_nan_r _ _ Hg_lo)).
    rewrite (SFeqb_refl sm (SFleb_not_nan_r _ _ Hs_lo)).
    reflexivity.
Qed.

(** C4 (as amended): for every persisted record that exists and parses
    (a JSON object whose present [gain] and [smoothing] fields coerce to
    floats), [load_config] substitutes a default for each missing field:
    [device_index] 0, [gain] 1.0, [smoothing] 0.8; a present field is
    taken from the record.  The file is left as it is. *)
Theorem load_config_missing_fields (kvs : list (string * pyval))
    (g sm : spec_float) (w : world)
    (Hfile : config_file w = Some (Doc (PDict kvs)))
    (Hgain : py_float (match assoc "gain" kvs with
                       | Some v => v
                       | None => PFloat f64_1_0
                       end) = Ok g)
    (Hsmooth : py_float (match assoc "smoothing" kvs with
                         | Some v => v
                         | None => PFloat f64_0_8
                         end) = Ok sm) :
  exists s : settings,
    load_config w = (Ok (Some s), w)
    /\ device_index s = match assoc "device_index" kvs with
                        | Some v => v
                        | None => PInt 0
                        end
    /\ gain s = g /\ smoothing s = sm
    /\ (assoc "device_index" kvs = None ->
        config_get_device_index (Some s) = PInt 0)
    /\ (assoc "gain" kvs = None -> config_get_gain (Some s) = f64_1_0)
    /\ (assoc "smoothing" kvs = None -> config_get_smoothing (Some s) = f64_0_8).
Proof.
  eexists. split.
  - apply load_config_ok.
    + unfold file_exists. rewrite Hfile. reflexivity.
    + unfold read_settings, bind, read_json, lift, ret. rewrite Hfile.
      cbn [dict_get]. rewrite Hgain, Hsmooth. reflexivity.
  - cbn [device_index gain smoothing config_get_device_index config_get_gain
         config_get_smoothing].
    repeat split.
    + intro H. rewrite H. reflexivity.
    + intro H. rewrite H in Hgain. cbn in Hgain. congruence.
    + intro H. rewrite H in Hsmooth. cbn in Hsmooth. congruence.
Qed.

(** C6 (as amended): for every persisted record whose content is malformed
    (reading, parsing or coercing it raises), provided the record can be
    removed, [load_config] swallows the error and returns the empty
    settings, which read as the defaults; the corrupt record no longer
    exists afterwards and the next load behaves as if no file were
    present. *)
Theorem load_config_corrupt_recovers (w : world) (e : exn)
    (Hfile : file_exists w = true)
    (Hbad : fst (read_settings w) = Raise e)
    (Hrm : removable w = true) :
  exists w1 : world,
    load_config w = (Ok None, w1)
    /\ config_get_device_index None = PNone
    /\ config_get_gain None = f64_1_0
    /\ config_get_smoothing None = f64_0_8
    /\ config_file w1 = None
    /\ trace w1 = (trace w ++ [MsgLoadError e; MsgCorruptRemoved])%list
    /\ load_config w1 = (Ok None, w1).
Proof.
  eexists.
  split; [rewrite (load_config_on_corrupt w e Hfile Hbad), Hrm; reflexivity |].
  do 4 (split; [reflexivity |]).
  split.
  - cbn. rewrite <- app_assoc. reflexivity.
  - apply load_config_absent. reflexivity.
Qed.

Lemma read_settings_raises (w : world) (c : content) :
  config_file w = Some c -> raises (read_settings w) = malformed c.
Proof.
  intro Hc. unfold raises, read_settings, bind, read_json, lift, ret.
  rewrite Hc. destruct c as [e | j]; [reflexivity |].
  destruct j; try reflexivity.
  cbn [dict_get malformed]. unfold coerces.
  destruct (py_float _); [| reflexivity].
  destruct (py_float _); reflexivity.
Qed.

(** C10: [load_config] raises exactly when the settings file exists, its
    content fails to be read, parsed or coerced, and the deletion of the
    file raises; the exception that propagates is then the one of the
    deletion and the file is still there.  In every other case
    [load_config] returns normally. *)
Theorem load_config_raises_iff (w : world) :
  raises (load_config w)
    = file_exists w && raises (read_settings w) && negb (removable w)
  /\ raises (load_config w)
     = match config_file w with
       | Some c => malformed c && negb (removable w)
       | None => false
       end
  /\ (raises (load_config w) = false
      \/ (fst (load_config w) = Raise OSError
          /\ config_file (snd (load_config w)) = config_file w)).
Proof.
  assert (H1 : raises (load_config w)
               = file_exists w && raises (read_settings w) && negb (removable w)
          /\ (raises (load_config w) = false
              \/ (fst (load_config w) = Raise OSError
                  /\ config_file (snd (load_config w)) = config_file w))).
  { destruct (file_exists w) eqn:Hf.
    - destruct (fst (read_settings w)) as [c | e] eqn:Hr.
      + rewrite (load_config_ok w c Hf Hr).
        unfold raises at 1 2 3. rewrite Hr. cbn. split; [reflexivity | left; reflexivity].
      + rewrite (load_config_on_corrupt w e Hf Hr).
        unfold raises at 2. rewrite Hr.
        destruct (removable w); cbn; split; try reflexivity.
        * left. reflexivity.
        * right. split; reflexivity.
    - unfold file_exists in Hf.
      destruct (config_file w) eqn:Hc; [discriminate Hf |].
      rewrite (load_config_absent w Hc). cbn. split; [reflexivity | left; reflexivity]. }
  destruct H1 as [H1 H2]. split; [exact H1 | split; [| exact H2]].
  rewrite H1. unfold file_exists.
  destruct (config_file w) as [c |] eqn:Hc; [| reflexivity].
  rewrite (read_settings_raises w c Hc). reflexivity.
Qed.

(** ** Device selection *)

Lemma enumerate_from_In {A} (l : list A) (k i : Z) (x : A) :
  In (i, x) (enumerate_from k l) ->
  k <= i /\ nth_error l (Z.to_nat (i - k)) = Some x.
Proof.
  revert k. induction l as [| a l IH]; intros k H.
  - destruct H.
  - destruct H as [H | H].
    + inversion H; subst. split; [lia |].
      replace (i - i) with 0 by lia. reflexivity.
    + apply IH in H. destruct H as [Hle Hnth]. split; [lia |].
      replace (Z.to_nat (i - k)) with (S (Z.to_nat (i - (k + 1)))) by lia.
      exact Hnth.
Qed.

(** Every entry of [valid_devices] is the index of a device of the table
    that has input channels. *)
Lemma valid_devices_In (ds : list device) (i : Z) :
  In i (map fst (valid_devices ds)) ->
  exists d, 0 <= i /\ nth_error ds (Z.to_nat i) = Some d
            /\ 0 < max_input_channels d.
Proof.
  unfold valid_devices. rewrite map_map. cbn [fst].
  intro H. apply in_map_iff in H. destruct H as [[j d] [Hj Hin]].
  cbn in Hj. subst j.
  apply filter_In in Hin. destruct Hin as [Hin Hch]. cbn in Hch.
  apply enumerate_from_In in Hin. destruct Hin as [Hle Hnth].
  exists d. rewrite Z.sub_0_r in Hnth.
  split; [exact Hle | split; [exact Hnth | apply Z.ltb_lt; exact Hch]].
Qed.

Lemma any_eq_witness (v : pyval) (valid : list (Z * string)) :
  any_eq v valid = true ->
  exists i, In i (map fst valid) /\ py_eq v (PInt i) = true.
Proof.
  unfold any_eq. intro H. apply existsb_exists in H.
  destruct H as [dev [Hin Heq]].
  exists (fst dev). split; [apply in_map; exact Hin | exact Heq].
Qed.

Lemma any_eq_int (n : Z) (valid : list (Z * string)) :
  any_eq (PInt n) valid = true <-> In n (map fst valid).
Proof.
  split.
  - intro H. apply any_eq_witness in H. destruct H as [i [Hin Heq]].
    cbn in Heq. apply Z.eqb_eq in Heq. subst. exact Hin.
  - intro H. apply in_map_iff in H. destruct H as [dev [Hfst Hin]].
    unfold any_eq. apply existsb_exists. exists dev.
    split; [exact Hin |]. cbn. apply Z.eqb_eq. symmetry. exact Hfst.
Qed.

(** What [select_loop] returns was entered, or taken as the default, and
    is in the eligible set. *)
Lemma select_loop_result (valid : list (Z * string)) (d0 : Z)
    (lines : list string) (w w' : world) (v : pyval) :
  select_loop valid d0 lines w = (Ok v, w') ->
  exists n, v = PInt n /\ In n (map fst valid).
Proof.
  revert w. induction lines as [| line rest IH]; intros w H; cbn in H.
  - discriminate H.
  - destruct (if String.eqb line "" then Some d0 else int_of_str line) as [n | ].
    + destruct (any_eq (PInt n) valid) eqn:Hn.
      * inversion H; subst. exists n. split; [reflexivity |].
        apply any_eq_int. exact Hn.
      * exact (IH _ H).
    + exact (IH _ H).
Qed.

Lemma select_loop_trace_grows (valid : list (Z * string)) (d0 : Z)
    (lines : list string) (w : world) :
  exists t, trace (snd (select_loop valid d0 lines w)) = (trace w ++ t)%list.
Proof.
  revert w. induction lines as [| line rest IH]; intros w; cbn.
  - eexists. reflexivity.
  - destruct (if String.eqb line "" then Some d0 else int_of_str line) as [n | ].
    + destruct (any_eq (PInt n) valid).
      * eexists. reflexivity.
      * destruct (IH (set_stdin rest (emit [Prompt d0] w))) as [t Ht].
        rewrite Ht. cbn. rewrite <- app_assoc. eexists. reflexivity.
    + destruct (IH (emit [MsgInvalidInput] (set_stdin rest (emit [Prompt d0] w))))
        as [t Ht].
      rewrite Ht. cbn. rewrite <- !app_assoc. eexists. reflexivity.
Qed.

(** The loop starts by prompting, with [d0] offered as the default. *)
Lemma select_loop_prompts (valid : list (Z * string)) (d0 : Z)
    (lines : list string) (w : world) :
  exists t,
    trace (snd (select_loop valid d0 lines w)) = (trace w ++ Prompt d0 :: t)%list.
Proof.
  destruct lines as [| line rest]; cbn.
  - exists []. reflexivity.
  - destruct (if String.eqb line "" then Some d0 else int_of_str line) as [n | ].
    + destruct (any_eq (PInt n) valid).
      * exists []. reflexivity.
      * destruct (select_loop_trace_grows valid d0 rest
                    (set_stdin rest (emit [Prompt d0] w))) as [t Ht].
        rewrite Ht. cbn. rewrite <- app_assoc. exists t. reflexivity.
    + destruct (select_loop_trace_grows valid d0 rest
                  (emit [MsgInvalidInput] (set_stdin rest (emit [Prompt d0] w))))
        as [t Ht].
      rewrite Ht. cbn. rewrite <- !app_assoc. eexists. reflexivity.
Qed.

Lemma get_device_saved (saved : pyval) (w : world) (d0 : Z) (nm : string)
    (rest : list (Z * string)) :
  valid_devices (devices w) = (d0, nm) :: rest ->
  is_none saved = false -> any_eq saved (valid_devices (devices w)) = true ->
  get_device saved w = (Ok saved, emit [MsgUsingSaved saved] w).
Proof.
  intros Hv Hn Ha. unfold get_device. rewrite Hv in *.
  rewrite Hn, Ha. reflexivity.
Qed.

Lemma get_device_prompt (saved : pyval) (w : world) (d0 : Z) (nm : string)
    (rest : list (Z * string)) :
  valid_devices (devices w) = (d0, nm) :: rest ->
  is_none saved = true \/ any_eq saved (valid_devices (devices w)) = false ->
  get_device saved w =
    select_loop (valid_devices (devices w)) d0 (stdin w)
      (emit (MsgAvailable
             :: map (fun p => MsgDevice (fst p) (snd p)) (valid_devices (devices w)))
         w).
Proof.
  intros Hv H. unfold get_device. rewrite Hv in *.
  destruct H as [H | H]; rewrite H; [| rewrite andb_false_r]; reflexivity.
Qed.

(** C9: every call of [get_device] that returns, returns a value equal to
    the index of a device of the table with more than zero input channels,
    in the saved-index branch as in the prompt branch; it never returns the
    index of a device that cannot record. *)
Theorem get_device_returns_eligible (saved : pyval) (w w' : world) (v : pyval)
    (Hret : get_device saved w = (Ok v, w')) :
  exists (i : Z) (d : device),
    py_eq v (PInt i) = true
    /\ In i (map fst (valid_devices (devices w)))
    /\ 0 <= i
    /\ nth_error (devices w) (Z.to_nat i) = Some d
    /\ 0 < max_input_channels d.
Proof.
  assert (Hin : exists i, In i (map fst (valid_devices (devices w)))
                          /\ py_eq v (PInt i) = true).
  { unfold get_device in Hret.
    destruct (valid_devices (devices w)) as [| [d0 nm] rest] eqn:Hv;
      [discriminate Hret |].
    destruct (negb (is_none saved) && any_eq saved ((d0, nm) :: rest)) eqn:Hs.
    - inversion Hret; subst.
      apply andb_true_iff in Hs. destruct Hs as [_ Hs].
      apply any_eq_witness. exact Hs.
    - apply select_loop_result in Hret. destruct Hret as [n [Hn Hin]].
      subst v. exists n. split; [exact Hin |]. cbn. apply Z.eqb_refl. }
  destruct Hin as [i [Hin Heq]].
  destruct (valid_devices_In _ _ Hin) as [d [Hi [Hnth Hch]]].
  exists i, d. repeat split; assumption.
Qed.

(** C7: for a non-empty eligible set, whose first index is [d0]: a saved
    index present in the set is returned directly, without reading input or
    prompting; otherwise [get_device] lists the devices and prompts with
    [d0] as the default, an empty line selects [d0], an entered index of
    the set is accepted and is the value returned, every entered line that
    is not a number or not an index of the set is rejected and the prompt
    repeated, and only an index of the set is returned. *)
Theorem get_device_spec (saved : pyval) (w : world) (d0 : Z) (nm : string)
    (rest : list (Z * string))
    (Hvalid : valid_devices (devices w) = (d0, nm) :: rest) :
  let valid := valid_devices (devices w) in
  let listed :=
    emit (MsgAvailable :: map (fun p => MsgDevice (fst p) (snd p)) valid) w in
  (is_none saved = false -> any_eq saved valid = true ->
     get_device saved w = (Ok saved, emit [MsgUsingSaved saved] w)
     /\ stdin (snd (get_device saved w)) = stdin w
     /\ trace (snd (get_device saved w)) = (trace w ++ [MsgUsingSaved saved])%list)
  /\ (is_none saved = true \/ any_eq saved valid = false ->
     get_device saved w = select_loop valid d0 (stdin w) listed
     /\ (exists t, trace (snd (get_device saved w))
                   = (trace listed ++ Prompt d0 :: t)%list)
     /\ (forall r, stdin w = "" :: r ->
           get_device saved w
           = (Ok (PInt d0), set_stdin r (emit [Prompt d0] listed)))
     /\ (forall v w', get_device saved w = (Ok v, w') ->
           exists n, v = PInt n /\ In n (map fst valid))
     /\ (forall line r n, stdin w = line :: r -> line <> "" ->
           int_of_str line = Some n -> In n (map fst valid) ->
           get_device saved w
           = (Ok (PInt n), set_stdin r (emit [Prompt d0] listed))))
  /\ (forall (line : string) (r : list string) (w0 : world),
        line <> "" ->
        (int_of_str line = None ->
           select_loop valid d0 (line :: r) w0
           = select_loop valid d0 r
               (emit [MsgInvalidInput] (set_stdin r (emit [Prompt d0] w0)))
           /\ exists t, trace (snd (select_loop valid d0 (line :: r) w0))
                        = (trace w0
                           ++ Prompt d0 :: MsgInvalidInput :: Prompt d0 :: t)%list)
        /\ (forall n, int_of_str line = Some n -> ~ In n (map fst valid) ->
           select_loop valid d0 (line :: r) w0
           = select_loop valid d0 r (set_stdin r (emit [Prompt d0] w0))
           /\ exists t, trace (snd (select_loop valid d0 (line :: r) w0))
                        = (trace w0 ++ Prompt d0 :: Prompt d0 :: t)%list)
        /\ (forall n, int_of_str line = Some n -> In n (map fst valid) ->
           select_loop valid d0 (line :: r) w0
           = (Ok (PInt n), set_stdin r (emit [Prompt d0] w0)))).
Proof.
  intros valid listed. split; [| split].
  - intros Hn Ha.
    rewrite (get_device_saved saved w d0 nm rest Hvalid Hn Ha).
    repeat split.
  - intro Hbad.
    rewrite (get_device_prompt saved w d0 nm rest Hvalid Hbad).
    fold valid. fold listed.
    split; [reflexivity | split; [apply select_loop_prompts | split; [| split]]].
    + intros r Hr. rewrite Hr. cbn.
      replace (any_eq (PInt d0) valid) with true; [reflexivity |].
      symmetry. apply any_eq_int. unfold valid. rewrite Hvalid. left. reflexivity.
    + intros v w' H. exact (select_loop_result _ _ _ _ _ _ H).
    + intros line r n Hr Hline Hp Hin. rewrite Hr. cbn.
      apply String.eqb_neq in Hline. rewrite Hline, Hp.
      apply any_eq_int in Hin. rewrite Hin. reflexivity.
  - intros line r w0 Hline.
    assert (Hne : String.eqb line "" = false).
    { apply String.eqb_neq. exact Hline. }
    split; [| split].
    + intro Hp.
      assert (E : select_loop valid d0 (line :: r) w0
                  = select_loop valid d0 r
                      (emit [MsgInvalidInput] (set_stdin r (emit [Prompt d0] w0)))).
      { cbn. rewrite Hne, Hp. reflexivity. }
      split; [exact E |]. rewrite E.
      destruct (select_loop_prompts valid d0 r
                  (emit [MsgInvalidInput] (set_stdin r (emit [Prompt d0] w0))))
        as [t Ht].
      exists t. rewrite Ht. cbn. rewrite <- !app_assoc. reflexivity.
    + intros n Hp Hnot.
      assert (E : select_loop valid d0 (line :: r) w0
                  = select_loop valid d0 r (set_stdin r (emit [Prompt d0] w0))).
      { cbn. rewrite Hne, Hp.
        destruct (any_eq (PInt n) valid) eqn:Hn; [| reflexivity].
        apply any_eq_int in Hn. contradiction. }
      split; [exact E |]. rewrite E.
      destruct (select_loop_prompts valid d0 r (set_stdin r (emit [Prompt d0] w0)))
        as [t Ht].
      exists t. rewrite Ht. cbn. rewrite <- !app_assoc. reflexivity.
    + intros n Hp Hin. cbn. rewrite Hne, Hp.
      apply any_eq_int in Hin. rewrite Hin. reflexivity.
Qed.

(** ** Startup *)

(** [__init__] after the settings were loaded as [cfg]. *)
Lemma init_after_load (bs : Z) (w : world) (cfg : config) :
  load_config w = (Ok cfg, w) ->
  CRT_Oscilloscope_init bs w =
    match get_device (config_get_device_index cfg) w with
    | (Ok dev, w1) =>
        (Ok {| self_block_size := bs; self_config := cfg; self_device := dev;
               self_fs := match device_info w1 with
                          | Ok fs => fs
                          | Raise _ => f64_44100
                          end;
               self_gain := config_get_gain cfg;
               self_smoothing := config_get_smoothing cfg;
               self_audio_queue := Queue_new 10 |},
         match device_info w1 with
         | Ok _ => w1
         | Raise e => emit [MsgDeviceInfoError e] w1
         end)
    | (Raise e, w1) => (Raise e, w1)
    end.
Proof.
  intro Hl. unfold CRT_Oscilloscope_init, bind. rewrite Hl.
  destruct (get_device (config_get_device_index cfg) w) as [[dev | e] w1];
    [| reflexivity].
  unfold try_except, query_samplerate.
  destruct (device_info w1); reflexivity.
Qed.

(** C5: when no settings file exists, [load_config] returns the empty
    settings, which read as device index unset, gain 1.0 and smoothing 0.8,
    and leaves the world as it is; with an eligible device present, the
    startup then lists the devices and prompts for one, and the object it
    builds has gain 1.0, smoothing 0.8 and a device chosen at the prompt. *)
Theorem load_config_no_file (bs : Z) (w : world) (d0 : Z) (nm : string)
    (rest : list (Z * string))
    (Hnone : config_file w = None)
    (Hvalid : valid_devices (devices w) = (d0, nm) :: rest) :
  load_config w = (Ok None, w)
  /\ config_get_device_index None = PNone
  /\ config_get_gain None = f64_1_0
  /\ config_get_smoothing None = f64_0_8
  /\ (exists t,
        trace (snd (CRT_Oscilloscope_init bs w))
        = (trace w
           ++ (MsgAvailable
               :: map (fun p => MsgDevice (fst p) (snd p))
                    (valid_devices (devices w)))
           ++ Prompt d0 :: t)%list)
  /\ (forall self w', CRT_Oscilloscope_init bs w = (Ok self, w') ->
        self_gain self = f64_1_0
        /\ self_smoothing self = f64_0_8
        /\ exists n, self_device self = PInt n
                     /\ In n (map fst (valid_devices (devices w)))).
Proof.
  pose proof (load_config_absent w Hnone) as Hl.
  split; [exact Hl |].
  do 3 (split; [reflexivity |]).
  rewrite (init_after_load bs w None Hl). cbn [config_get_device_index].
  rewrite (get_device_prompt PNone w d0 nm rest Hvalid (or_introl eq_refl)).
  set (listed := emit _ w).
  destruct (select_loop_prompts (valid_devices (devices w)) d0 (stdin w) listed)
    as [t Ht].
  destruct (select_loop (valid_devices (devices w)) d0 (stdin w) listed)
    as [[dev | e] w1] eqn:Hsel; cbn [snd] in Ht.
  - split.
    + destruct (device_info w1); cbn [snd trace emit]; rewrite Ht;
        unfold listed; cbn [trace emit]; rewrite <- !app_assoc;
        eexists; cbn; reflexivity.
    + intros self w' H. inversion H; subst. cbn.
      split; [reflexivity | split; [reflexivity |]].
      exact (select_loop_result _ _ _ _ _ _ Hsel).
  - split.
    + cbn [snd]. rewrite Ht. unfold listed. cbn [trace emit].
      rewrite <- !app_assoc. eexists. cbn. reflexivity.
    + intros self w' H. discriminate H.
Qed.

(** ** The hand-off queue *)

Lemma put_nowait_full (q : Queue) (x : block) :
  maxsize q = 10 -> qsize q = 10 -> put_nowait q x = None.
Proof.
  intros Hm Hs. unfold put_nowait. rewrite Hm, Hs. reflexivity.
Qed.

Lemma put_nowait_room (q : Queue) (x : block) :
  maxsize q = 10 -> qsize q < 10 ->
  put_nowait q x = Some {| maxsize := 10; items := items q ++ [x] |}.
Proof.
  intros Hm Hs. unfold put_nowait. rewrite Hm.
  destruct (10 <=? qsize q) eqn:E; [apply Z.leb_le in E; lia |].
  reflexivity.
Qed.

Lemma put_nowait_appends (q q' : Queue) (x : block) :
  put_nowait q x = Some q' ->
  items q' = (items q ++ [x])%list /\ maxsize q' = maxsize q.
Proof.
  unfold put_nowait.
  destruct ((0 <? maxsize q) && (maxsize q <=? qsize q)); [discriminate |].
  intro H. inversion H. split; reflexivity.
Qed.

Lemma put_nowait_ok (q q' : Queue) (x : block) :
  queue_ok q -> put_nowait q x = Some q' -> queue_ok q'.
Proof.
  intros [Hm Hs] H. unfold put_nowait in H. rewrite Hm in H. cbn in H.
  destruct (10 <=? qsize q) eqn:E; [discriminate H |].
  apply Z.leb_gt in E. inversion H; subst q'.
  unfold queue_ok, qsize in *. cbn. rewrite length_app. cbn. split; lia.
Qed.

Lemma get_oldest (q q' : Queue) (b : block) :
  get q = Some (b, q') -> items q = b :: items q' /\ maxsize q' = maxsize q.
Proof.
  unfold get. destruct (items q) as [| x r]; [discriminate |].
  intro H. inversion H. split; reflexivity.
Qed.

Lemma get_ok (q q' : Queue) (b : block) :
  queue_ok q -> get q = Some (b, q') -> queue_ok q'.
Proof.
  intros [Hm Hs] H. apply get_oldest in H. destruct H as [Hi Hm'].
  unfold queue_ok, qsize in *. rewrite Hi in Hs. cbn [List.length] in Hs.
  split; [congruence | lia].
Qed.

Lemma audio_callback_eq (self : scope) (indata : list frame) (status : bool)
    (w : world) :
  audio_callback self indata status w =
    let w1 := if status then emit [MsgStatus] w else w in
    match indata with
    | [] => (Ok self, emit [MsgNoAudio] w1)
    | _ :: _ =>
        match put_nowait (self_audio_queue self)
                (gained_block (self_gain self) indata) with
        | Some q => (Ok (set_audio_queue q self), w1)
        | None => (Ok self, w1)
        end
    end.
Proof.
  unfold audio_callback, bind, gained_block.
  destruct status; destruct indata as [| f r]; cbn [List.length Nat.eqb];
    try reflexivity;
    unfold print, ret;
    destruct (put_nowait _ _); reflexivity.
Qed.

Lemma save_state_returns (self : scope) (w : world) :
  exists w', save_state self w = (Ok tt, w').
Proof.
  unfold save_state. rewrite save_config_eq.
  destruct (writable w); eexists; reflexivity.
Qed.

Lemma audio_callback_returns (self : scope) (indata : list frame)
    (status : bool) (w : world) :
  exists self' w', audio_callback self indata status w = (Ok self', w').
Proof.
  rewrite audio_callback_eq. cbn zeta.
  destruct indata as [| f r]; [eexists; eexists; reflexivity |].
  destruct (put_nowait _ _); eexists; eexists; reflexivity.
Qed.

(** Nothing in the render loop raises. *)
Lemma render_loop_returns (evs : list ui_event) (self : scope) (w : world) :
  exists self' w', render_loop self evs w = (Ok self', w').
Proof.
  revert self w. induction evs as [| ev evs IH]; intros self w.
  - exists self, w. reflexivity.
  - destruct ev as [indata status | val | val | ]; cbn [render_loop]; unfold bind.
    + destruct (audio_callback_returns self indata status w) as [s1 [w1 H]].
      rewrite H. apply IH.
    + unfold update_gain, bind.
      destruct (save_state_returns (set_gain val self) w) as [w' Hs].
      rewrite Hs. unfold ret. apply IH.
    + unfold update_smoothing, bind.
      destruct (save_state_returns (set_smoothing val self) w) as [w' Hs].
      rewrite Hs. unfold ret. apply IH.
    + destruct (get (self_audio_queue self)) as [[b q] |]; [| apply IH].
      unfold bind, print. apply IH.
Qed.

(** The render loop, with the callbacks and slider moves that interleave
    with it, always runs to its end and keeps the queue within capacity. *)
Lemma render_loop_invariant (evs : list ui_event) (self : scope) (w : world) :
  queue_ok (self_audio_queue self) ->
  exists self' w',
    render_loop self evs w = (Ok self', w')
    /\ queue_ok (self_audio_queue self').
Proof.
  revert self w. induction evs as [| ev evs IH]; intros self w Hq.
  - exists self, w. split; [reflexivity | exact Hq].
  - destruct ev as [indata status | val | val | ]; cbn [render_loop]; unfold bind.
    + rewrite audio_callback_eq. cbn zeta.
      destruct indata as [| f r].
      * apply IH. exact Hq.
      * destruct (put_nowait _ _) as [q |] eqn:Hp.
        -- apply IH. cbn. exact (put_nowait_ok _ _ _ Hq Hp).
        -- apply IH. exact Hq.
    + unfold update_gain, bind.
      destruct (save_state_returns (set_gain val self) w) as [w' Hs].
      rewrite Hs. unfold ret. apply IH. exact Hq.
    + unfold update_smoothing, bind.
      destruct (save_state_returns (set_smoothing val self) w) as [w' Hs].
      rewrite Hs. unfold ret. apply IH. exact Hq.
    + destruct (get (self_audio_queue self)) as [[b q] |] eqn:Hg.
      * unfold bind, print. apply IH. cbn. exact (get_ok _ _ _ Hq Hg).
      * apply IH. exact Hq.
Qed.

Lemma firstn_app_full {A} (n : nat) (l r : list A) :
  List.length l = n -> firstn n (l ++ r) = l.
Proof.
  intro H. rewrite firstn_app, H, Nat.sub_diag, firstn_O, app_nil_r.
  rewrite <- H. apply firstn_all.
Qed.

(** Deliveries with no consumer: the queue keeps the first ten blocks. *)
Lemma deliveries_keep_first (ins : list (list frame)) (self : scope) (w : world) :
  maxsize (self_audio_queue self) = 10 ->
  (List.length (items (self_audio_queue self)) <= 10)%nat ->
  Forall (fun indata => indata <> []) ins ->
  exists self' w',
    render_loop self (deliveries ins) w = (Ok self', w')
    /\ self_gain self' = self_gain self
    /\ maxsize (self_audio_queue self') = 10
    /\ items (self_audio_queue self')
       = firstn 10 (items (self_audio_queue self)
                    ++ map (gained_block (self_gain self)) ins).
Proof.
  revert self w. induction ins as [| indata ins IH]; intros self w Hm Hl Hne.
  - exists self, w. cbn [deliveries map render_loop]. rewrite app_nil_r.
    split; [reflexivity | split; [reflexivity | split; [exact Hm |]]].
    symmetry. apply firstn_all2. exact Hl.
  - inversion Hne as [| ? ? Hhd Htl]; subst.
    cbn [deliveries map render_loop]. unfold bind.
    rewrite audio_callback_eq. cbn zeta.
    destruct indata as [| f r]; [contradiction |].
    destruct (Z.eq_dec (qsize (self_audio_queue self)) 10) as [Hfull | Hroom].
    + rewrite (put_nowait_full _ _ Hm Hfull).
      destruct (IH self w Hm Hl Htl) as [self' [w' [Hr [Hg [Hm' Hi]]]]].
      exists self', w'.
      split; [exact Hr | split; [exact Hg | split; [exact Hm' |]]].
      rewrite Hi.
      assert (Hlen : List.length (items (self_audio_queue self)) = 10%nat)
        by (unfold qsize in Hfull; lia).
      rewrite !(firstn_app_full 10 _ _ Hlen). reflexivity.
    + assert (Hlt : qsize (self_audio_queue self) < 10)
        by (unfold qsize in *; lia).
      rewrite (put_nowait_room _ _ Hm Hlt).
      set (q := {| maxsize := 10; items := _ |}).
      destruct (IH (set_audio_queue q self) w) as [self' [w' [Hr [Hg [Hm' Hi]]]]];
        try assumption.
      * reflexivity.
      * cbn. rewrite length_app. cbn. unfold qsize in Hlt. lia.
      * exists self', w'.
        split; [exact Hr | split; [exact Hg | split; [exact Hm' |]]].
        rewrite Hi. cbn [set_audio_queue self_audio_queue self_gain items q map].
        rewrite <- app_assoc. reflexivity.
Qed.

Lemma render_loop_app (e1 e2 : list ui_event) (self : scope) (w : world) :
  render_loop self (e1 ++ e2) w =
    match render_loop self e1 w with
    | (Ok self1, w1) => render_loop self1 e2 w1
    | (Raise e, w1) => (Raise e, w1)
    end.
Proof.
  revert self w. induction e1 as [| ev e1 IH]; intros self w.
  - reflexivity.
  - destruct ev as [indata status | val | val | ];
      cbn [app render_loop]; unfold bind.
    + destruct (audio_callback self indata status w) as [[s | e] w1];
        [apply IH | reflexivity].
    + destruct (update_gain self val w) as [[s | e] w1]; [apply IH | reflexivity].
    + destruct (update_smoothing self val w) as [[s | e] w1];
        [apply IH | reflexivity].
    + destruct (get (self_audio_queue self)) as [[b q] |]; [| apply IH].
      unfold bind, print. apply IH.
Qed.

(** The consumer alone: as many iterations as there are blocks draw them
    oldest first and leave the queue empty. *)
Lemma ticks_draw_in_order (l : list block) (self : scope) (w : world) :
  items (self_audio_queue self) = l ->
  exists self',
    render_loop self (repeat RenderTick (List.length l)) w
    = (Ok self', emit (map Draw l) w)
    /\ items (self_audio_queue self') = [].
Proof.
  revert self w. induction l as [| b l IH]; intros self w Hi.
  - exists self. cbn. split; [| exact Hi].
    unfold ret, emit. rewrite app_nil_r. destruct w; reflexivity.
  - cbn [List.length repeat render_loop]. unfold get. rewrite Hi.
    unfold bind, print.
    destruct (IH (set_audio_queue
                    {| maxsize := maxsize (self_audio_queue self); items := l |} self)
                 (emit [Draw b] w)) as [self' [Hr He]]; [reflexivity |].
    exists self'. split; [| exact He].
    rewrite Hr. f_equal. unfold emit. cbn. rewrite <- app_assoc. reflexivity.
Qed.

Lemma init_queue (bs : Z) (w w' : world) (self : scope) :
  CRT_Oscilloscope_init bs w = (Ok self, w') ->
  self_audio_queue self = Queue_new 10.
Proof.
  unfold CRT_Oscilloscope_init, bind.
  destruct (load_config w) as [[cfg | e] w1]; [| discriminate].
  destruct (get_device (config_get_device_index cfg) w1) as [[dev | e] w2];
    [| discriminate].
  unfold try_except, query_samplerate, print, ret.
  destruct (device_info w2); intro H; inversion H; reflexivity.
Qed.

(** C1: the hand-off queue is created by [__init__] with capacity 10.
    From there, for every sequence of callback deliveries, render-loop
    iterations and slider moves, the session runs to its end and the queue
    holds at most 10 blocks.  A delivery that finds the queue full is
    dropped ([put_nowait] raises [queue.Full]) and the callback leaves the
    queued blocks as they are.  Eleven deliveries with no consumer keep
    exactly the first ten blocks, in order of arrival, the eleventh is
    dropped, and the consumer then draws the ten oldest first. *)
Theorem handoff_queue_bounded
    (bs : Z) (w0 w : world) (self : scope) (evs : list ui_event)
    (full : scope) (indata : list frame) (status : bool)
    (ins : list (list frame))
    (Hinit : CRT_Oscilloscope_init bs w0 = (Ok self, w))
    (Hmax : maxsize (self_audio_queue full) = 10)
    (Hfull : qsize (self_audio_queue full) = 10)
    (Hdata : indata <> [])
    (Hins : List.length ins = 11%nat)
    (Hne : Forall (fun indata => indata <> []) ins) :
  self_audio_queue self = Queue_new 10
  /\ maxsize (self_audio_queue self) = 10
  /\ (exists self' w',
        render_loop self evs w = (Ok self', w')
        /\ maxsize (self_audio_queue self') = 10
        /\ qsize (self_audio_queue self') <= 10)
  /\ put_nowait (self_audio_queue full) (gained_block (self_gain full) indata) = None
  /\ fst (audio_callback full indata status w) = Ok full
  /\ (exists self10 w10 self11 w11,
        render_loop self (deliveries (firstn 10 ins)) w = (Ok self10, w10)
        /\ qsize (self_audio_queue self10) = 10
        /\ (forall x, put_nowait (self_audio_queue self10) x = None)
        /\ render_loop self (deliveries ins) w = (Ok self11, w11)
        /\ self_audio_queue self11 = self_audio_queue self10
        /\ items (self_audio_queue self11)
           = firstn 10 (map (gained_block (self_gain self)) ins)
        /\ qsize (self_audio_queue self11) = 10
        /\ exists self',
             render_loop self (deliveries ins ++ repeat RenderTick 10) w
             = (Ok self',
                emit (map Draw (firstn 10 (map (gained_block (self_gain self)) ins)))
                  w11)
             /\ items (self_audio_queue self') = []).
Proof.
  pose proof (init_queue bs w0 w self Hinit) as Hfresh.
  split; [exact Hfresh |].
  split; [rewrite Hfresh; reflexivity |].
  split.
  { destruct (render_loop_invariant evs self w) as [self' [w' [Hr [Hm Hs]]]].
    - rewrite Hfresh. split; [reflexivity | cbn; lia].
    - exists self', w'. auto. }
  split; [exact (put_nowait_full _ _ Hmax Hfull) |].
  split.
  { rewrite audio_callback_eq. cbn zeta.
    destruct indata as [| f r]; [contradiction |].
    rewrite (put_nowait_full _ _ Hmax Hfull). reflexivity. }
  assert (Hm0 : maxsize (self_audio_queue self) = 10) by (rewrite Hfresh; reflexivity).
  assert (Hl0 : (List.length (items (self_audio_queue self)) <= 10)%nat)
    by (rewrite Hfresh; cbn; lia).
  assert (Hne10 : Forall (fun indata => indata <> []) (firstn 10 ins)).
  { apply Forall_forall. intros x Hx.
    rewrite Forall_forall in Hne. apply Hne.
    rewrite <- (firstn_skipn 10 ins). apply in_or_app. left. exact Hx. }
  destruct (deliveries_keep_first (firstn 10 ins) self w Hm0 Hl0 Hne10)
    as [self10 [w10 [Hr10 [Hg10 [Hm10 Hi10]]]]].
  destruct (deliveries_keep_first ins self w Hm0 Hl0 Hne)
    as [self11 [w11 [Hr11 [Hg11 [Hm11 Hi11]]]]].
  rewrite Hfresh in Hi10, Hi11. cbn [Queue_new items app] in Hi10, Hi11.
  assert (Hmap : firstn 10 (map (gained_block (self_gain self)) (firstn 10 ins))
                 = firstn 10 (map (gained_block (self_gain self)) ins)).
  { rewrite <- !firstn_map. rewrite firstn_firstn. reflexivity. }
  rewrite Hmap in Hi10.
  assert (Hlen : List.length (firstn 10 (map (gained_block (self_gain self)) ins))
                 = 10%nat).
  { rewrite length_firstn, length_map, Hins. reflexivity. }
  assert (Hs10 : qsize (self_audio_queue self10) = 10).
  { unfold qsize. rewrite Hi10, Hlen. reflexivity. }
  assert (Hs11 : qsize (self_audio_queue self11) = 10).
  { unfold qsize. rewrite Hi11, Hlen. reflexivity. }
  exists self10, w10, self11, w11.
  split; [exact Hr10 |].
  split; [exact Hs10 |].
  split; [intro x; exact (put_nowait_full _ x Hm10 Hs10) |].
  split; [exact Hr11 |].
  split.
  { destruct (self_audio_queue self11) as [m11 i11].
    destruct (self_audio_queue self10) as [m10 i10].
    cbn in *. congruence. }
  split; [exact Hi11 |].
  split; [exact Hs11 |].
  rewrite render_loop_app, Hr11.
  destruct (ticks_draw_in_order _ self11 w11 Hi11) as [self' [Hr He]].
  rewrite Hlen in Hr.
  exists self'. split; [exact Hr | exact He].
Qed.

(** ** The session *)

(** C8: when opening the input stream fails with [e], [run] returns
    normally, with the object unchanged; it prints the start message, the
    error [e] and the advice to try a different microphone, and then calls
    [save_config] exactly once with the current settings (the file then
    holds them, when it can be written); nothing is shown or drawn. *)
Theorem run_stream_open_fails (self : scope) (w : world) (e : exn)
    (Hfail : stream_error w = Some e) :
  let new := [MsgStarting; MsgStreamError e; MsgTryDifferent;
              if writable w then MsgSaved else MsgSaveError OSError] in
  exists w',
    run self w = (Ok self, w')
    /\ trace w' = (trace w ++ new)%list
    /\ List.length (filter is_save_event new) = 1%nat
    /\ existsb is_display_event new = false
    /\ config_file w'
       = if writable w
         then Some (Doc (PDict [("device_index", self_device self);
                                ("gain", PFloat (self_gain self));
                                ("smoothing", PFloat (self_smoothing self))]))
         else config_file w.
Proof.
  intro new. subst new.
  unfold run, bind, try_except, open_stream, print, ret.
  cbn [stream_error emit]. rewrite Hfail.
  rewrite save_config_eq. cbn [writable emit].
  destruct (writable w); eexists; (split; [reflexivity |]);
    cbn; rewrite <- !app_assoc; repeat split.
Qed.


(** ** More on the gain stage *)

Lemma SFcompare_antisym (a b : spec_float) :
  SFcompare b a = option_map CompOpp (SFcompare a b).
Proof.
  destruct a as [sa | sa | | sa ma ea], b as [sb | sb | | sb mb eb];
    try reflexivity; try (destruct sa; reflexivity);
    try (destruct sb; reflexivity);
    try (destruct sa, sb; reflexivity).
  assert (Hm : Pos.compare_cont Eq mb ma = CompOpp (Pos.compare_cont Eq ma mb))
    by (rewrite Pos.compare_cont_antisym; reflexivity).
  cbn. rewrite (Z.compare_antisym ea eb), Hm.
  destruct sa, sb; try reflexivity;
    destruct (ea ?= eb); cbn [CompOpp]; try reflexivity;
    destruct (Pos.compare_cont Eq ma mb); reflexivity.
Qed.

Lemma SFltb_asym (a b : spec_float) : SFltb a b = true -> SFltb b a = false.
Proof.
  unfold SFltb. rewrite (SFcompare_antisym a b).
  destruct (SFcompare a b) as [[ | | ] | ]; cbn; congruence.
Qed.

Lemma SFleb_not_gt (a b : spec_float) : SFleb a b = true -> SFltb b a = false.
Proof.
  unfold SFleb, SFltb. rewrite (SFcompare_antisym a b).
  destruct (SFcompare a b) as [[ | | ] | ]; cbn; congruence.
Qed.

(** Two floats that compare equal, one of them finite, are the same. *)
Lemma SFcompare_Eq_finite (s : bool) (m : positive) (e : Z) (x : spec_float) :
  SFcompare (S754_finite s m e) x = Some Eq -> x = S754_finite s m e.
Proof.
  destruct x as [sx | sx | | sx mx ex]; cbn.
  - destruct s; discriminate.
  - destruct sx; discriminate.
  - discriminate.
  - destruct s, sx; try discriminate;
      destruct (e ?= ex) eqn:He; try discriminate;
      apply Z.compare_eq in He; subst ex; intro H;
      assert (Hm : Pos.compare_cont Eq m mx = Eq)
        by (destruct (Pos.compare_cont Eq m mx); cbn in H; congruence);
      apply Pos.compare_eq in Hm; subst mx; reflexivity.
Qed.

Lemma bounds_finite (d : dtype) :
  exists m e, np_of_int d (-1) = S754_finite true m e
              /\ np_of_int d 1 = S754_finite false m e.
Proof. destruct d; eexists; eexists; split; vm_compute; reflexivity. Qed.

(** Above the lower bound follows from above the upper bound. *)
Lemma above_upper_above_lower (d : dtype) (x : spec_float) :
  SFltb (np_of_int d 1) x = true -> SFltb (np_of_int d (-1)) x = true.
Proof.
  destruct (bounds_finite d) as [m [e [Hlo Hhi]]]. rewrite Hlo, Hhi.
  destruct x as [s | s | | s mx ex]; cbn; try discriminate.
  - destruct s; [discriminate | reflexivity].
  - destruct s; [discriminate | reflexivity].
Qed.

Lemma clamp_below (d : dtype) (x : spec_float) :
  SFltb x (np_of_int d (-1)) = true -> clamp d x = np_of_int d (-1).
Proof.
  intro H. unfold clamp, np_clip, npy_max, npy_min.
  assert (Hx : is_nan x = false) by (destruct x; [reflexivity .. | discriminate H | reflexivity]).
  rewrite Hx, (SFltb_asym _ _ H).
  rewrite (SFleb_not_nan_l _ _ (lower_refl d)), (bounds_lt d). reflexivity.
Qed.

Lemma clamp_above (d : dtype) (x : spec_float) :
  SFltb (np_of_int d 1) x = true -> clamp d x = np_of_int d 1.
Proof.
  intro H. unfold clamp, np_clip, npy_max, npy_min.
  assert (Hx : is_nan x = false).
  { destruct x; try reflexivity.
    destruct (np_of_int d 1); discriminate H. }
  rewrite Hx, (above_upper_above_lower d x H), Hx, (SFltb_asym _ _ H).
  reflexivity.
Qed.

Lemma clamp_inside (d : dtype) (x : spec_float) :
  in_unit_range d x = true -> clamp d x = x.
Proof.
  unfold in_unit_range. intro H. apply andb_true_iff in H. destruct H as [H1 H2].
  unfold clamp, np_clip, npy_max, npy_min.
  assert (Hx : is_nan x = false) by exact (SFleb_not_nan_r _ _ H1).
  destruct (bounds_finite d) as [m [e [Hlo Hhi]]].
  rewrite Hx.
  destruct (SFltb (np_of_int d (-1)) x) eqn:Hl.
  - rewrite Hx.
    destruct (SFltb x (np_of_int d 1)) eqn:Hu; [reflexivity |].
    symmetry. rewrite Hhi in *. apply SFcompare_Eq_finite.
    rewrite SFcompare_antisym.
    unfold SFleb in H2. unfold SFltb in Hu.
    destruct (SFcompare x (S754_finite false m e)) as [[ | | ] | ];
      cbn; congruence.
  - assert (E : x = np_of_int d (-1)).
    { rewrite Hlo in *. apply SFcompare_Eq_finite.
      unfold SFleb in H1. unfold SFltb in Hl.
      destruct (SFcompare (S754_finite true m e) x) as [[ | | ] | ]; congruence. }
    rewrite <- E, Hx.
    rewrite E, (bounds_lt d). reflexivity.
Qed.

(** X1: [np.clip(x, -1, 1)] as the callback uses it returns -1.0 for every
    [x] below -1.0, 1.0 for every [x] above 1.0 (the infinities included),
    [x] itself for every [x] in [-1.0, 1.0], and NaN for NaN. *)
Theorem clamp_saturates (d : dtype) (x : spec_float) :
  (SFltb x (np_of_int d (-1)) = true -> clamp d x = np_of_int d (-1))
  /\ (SFltb (np_of_int d 1) x = true -> clamp d x = np_of_int d 1)
  /\ (in_unit_range d x = true -> clamp d x = x)
  /\ clamp d S754_nan = S754_nan
  /\ clamp d (S754_infinity false) = np_of_int d 1
  /\ clamp d (S754_infinity true) = np_of_int d (-1).
Proof.
  split; [| split; [| split; [| split; [| split]]]].
  - apply clamp_below.
  - apply clamp_above.
  - apply clamp_inside.
  - reflexivity.
  - destruct d; reflexivity.
  - destruct d; reflexivity.
Qed.

(** Rounding a mantissa that is not negative never gives NaN. *)
Lemma shr_1_nonneg (mrs : shr_record) : 0 <= shr_m mrs -> 0 <= shr_m (shr_1 mrs).
Proof.
  destruct mrs as [m r s]. cbn.
  destruct m as [| p | p]; [intros _; cbn; lia | | intro H; lia].
  intros _. destruct p; cbn; lia.
Qed.

Lemma iter_pos_nonneg (p : positive) (mrs : shr_record) :
  0 <= shr_m mrs -> 0 <= shr_m (iter_pos shr_1 p mrs).
Proof.
  revert mrs. induction p as [p IH | p IH | ]; intros mrs H; cbn.
  - apply IH, IH, shr_1_nonneg, H.
  - apply IH, IH, H.
  - apply shr_1_nonneg, H.
Qed.

Lemma shr_fexp_nonneg (p q : Z) (m e : Z) (l : location) :
  0 <= m -> 0 <= shr_m (fst (shr_fexp p q m e l)).
Proof.
  intro H. unfold shr_fexp, shr.
  assert (H0 : 0 <= shr_m (shr_record_of_loc m l))
    by (destruct l as [| []]; exact H).
  destruct (fexp p q (Zdigits2 m + e) - e); cbn [fst]; try exact H0.
  apply iter_pos_nonneg, H0.
Qed.

Lemma round_nearest_even_nonneg (m : Z) (l : location) :
  0 <= m -> 0 <= round_nearest_even m l.
Proof.
  intro H. unfold round_nearest_even.
  destruct l as [| []]; try exact H; try lia.
  destruct (Z.even m); lia.
Qed.

Lemma binary_round_aux_not_nan (p q : Z) (sx : bool) (mx ex : Z) (lx : location) :
  0 <= mx -> is_nan (binary_round_aux p q sx mx ex lx) = false.
Proof.
  intro H. unfold binary_round_aux.
  pose proof (shr_fexp_nonneg p q mx ex lx H) as H1.
  destruct (shr_fexp p q mx ex lx) as [mrs' e']. cbn [fst] in H1.
  pose proof (shr_fexp_nonneg p q _ e' loc_Exact
                (round_nearest_even_nonneg _ (loc_of_shr_record mrs') H1)) as H2.
  destruct (shr_fexp p q (round_nearest_even (shr_m mrs') (loc_of_shr_record mrs'))
              e' loc_Exact) as [mrs'' e'']. cbn [fst] in H2.
  destruct (shr_m mrs'') as [| m | m]; [reflexivity | | lia].
  destruct (e'' <=? q - p); reflexivity.
Qed.

(** The product of two floats that are neither NaN nor infinite is not
    NaN. *)
Lemma np_mul_finite_not_nan (d : dtype) (x y : spec_float) :
  is_finite_or_zero x = true -> is_finite_or_zero y = true ->
  is_nan (np_mul d x y) = false.
Proof.
  destruct x as [sx | sx | | sx mx ex]; try discriminate;
    destruct y as [sy | sy | | sy my ey]; try discriminate; intros _ _;
    try reflexivity.
  unfold np_mul, SFmul. apply binary_round_aux_not_nan. lia.
Qed.

(** X2: for every sample that is neither NaN nor infinite and every gain
    that is neither NaN nor infinite once converted to the format of the
    computation, the stored sample lies in [-1.0, 1.0]: an overflow of the
    product is clamped like any large value. *)
Theorem stored_sample_finite_in_range (d : dtype) (s g : spec_float)
    (Hs : is_finite_or_zero s = true)
    (Hg : is_finite_or_zero (np_cast d g) = true) :
  in_unit_range d (stored_sample d g s) = true.
Proof.
  unfold stored_sample. apply clamp_in_unit_range.
  apply np_mul_finite_not_nan; assumption.
Qed.


(** ** More on the session *)

Lemma save_config_world (c : settings) (w : world) :
  save_config c w =
    (Ok tt,
     if writable w
     then emit [MsgSaved] (set_config_file (Some (Doc (settings_doc c))) w)
     else emit [MsgSaveError OSError] w).
Proof. rewrite save_config_eq. destruct (writable w); reflexivity. Qed.

Lemma render_loop_cons (ev : ui_event) (rest : list ui_event) (self : scope)
    (w : world) :
  render_loop self (ev :: rest) w
  = render_loop (fst (ui_step self w ev)) rest (snd (ui_step self w ev)).
Proof.
  destruct ev as [indata status | val | val | ]; cbn [render_loop ui_step];
    unfold bind.
  - rewrite audio_callback_eq. cbn zeta.
    destruct indata as [| f r]; [reflexivity |].
    destruct (put_nowait _ _); reflexivity.
  - unfold update_gain, save_state, bind. fold (current_settings (set_gain val self)).
    rewrite save_config_world. reflexivity.
  - unfold update_smoothing, save_state, bind.
    fold (current_settings (set_smoothing val self)).
    rewrite save_config_world. reflexivity.
  - destruct (get (self_audio_queue self)) as [[b q] |]; reflexivity.
Qed.

(** The render loop is the iteration of [ui_step]. *)
Lemma render_loop_steps (evs : list ui_event) (self : scope) (w : world) :
  render_loop self evs w
  = (Ok (fst (ui_steps evs self w)), snd (ui_steps evs self w)).
Proof.
  revert self w. induction evs as [| ev evs IH]; intros self w.
  - reflexivity.
  - rewrite render_loop_cons, IH. unfold ui_steps. cbn [fold_left fst snd].
    destruct (ui_step self w ev); reflexivity.
Qed.

Lemma ui_steps_cons (ev : ui_event) (evs : list ui_event) (self : scope)
    (w : world) :
  ui_steps (ev :: evs) self w
  = ui_steps evs (fst (ui_step self w ev)) (snd (ui_step self w ev)).
Proof.
  unfold ui_steps. cbn [fold_left fst snd].
  destruct (ui_step self w ev); reflexivity.
Qed.

Lemma draws_app (t1 t2 : list event) : draws (t1 ++ t2) = (draws t1 ++ draws t2)%list.
Proof. unfold draws. apply flat_map_app. Qed.

Lemma clamped_clamp (d : dtype) (x : spec_float) : clamped d (clamp d x) = true.
Proof.
  unfold clamped. destruct (is_nan x) eqn:Hx.
  - destruct x; try discriminate Hx. reflexivity.
  - rewrite (clamp_in_unit_range d x Hx). apply orb_true_r.
Qed.

Lemma gained_block_ok (g : spec_float) (f : frame) (r : list frame) :
  block_ok (gained_block g (f :: r)).
Proof.
  split; [discriminate |].
  unfold gained_block. rewrite map_map. apply Forall_forall.
  intros x Hx. apply in_map_iff in Hx. destruct Hx as [fr [Hx _]]. subst x.
  apply clamped_clamp.
Qed.

Lemma gained_block_length (g : spec_float) (indata : list frame) :
  List.length (gained_block g indata) = List.length indata.
Proof. unfold gained_block. rewrite !length_map. reflexivity. Qed.

Lemma emit_emit (a b : list event) (w : world) :
  emit b (emit a w) = emit (a ++ b) w.
Proof. unfold emit. cbn. rewrite <- app_assoc. reflexivity. Qed.

Lemma run_eq (self : scope) (w : world) :
  run self w =
    match stream_error w with
    | Some e =>
        (Ok self,
         snd (save_config (current_settings self)
                (emit [MsgStarting; MsgStreamError e; MsgTryDifferent] w)))
    | None =>
        let sw := ui_steps (session w) self (emit [MsgStarting; ShowWindow] w) in
        (Ok (fst sw), snd (save_config (current_settings (fst sw)) (snd sw)))
    end.
Proof.
  unfold run, bind, try_except, open_stream, print, ret.
  cbn [stream_error emit].
  destruct (stream_error w) as [e |].
  - rewrite !emit_emit. cbn [app].
    unfold current_settings. rewrite save_config_world. reflexivity.
  - rewrite !emit_emit. cbn [app].
    change (session (emit [MsgStarting; ShowWindow] w)) with (session w).
    rewrite render_loop_steps. cbn zeta.
    unfold current_settings. rewrite save_config_world. reflexivity.
Qed.



Lemma same_env_emit (evs : list event) (w : world) : same_env w (emit evs w).
Proof. repeat split. Qed.

Lemma same_env_save (c : settings) (w : world) :
  same_env w (snd (save_config c w)).
Proof.
  rewrite save_config_world. cbn [snd]. destruct (writable w); repeat split.
Qed.

Lemma same_env_trans (w1 w2 w3 : world) :
  same_env w1 w2 -> same_env w2 w3 -> same_env w1 w3.
Proof.
  unfold same_env. intros H1 H2.
  destruct H1 as [A1 [A2 [A3 [A4 [A5 [A6 A7]]]]]].
  destruct H2 as [B1 [B2 [B3 [B4 [B5 [B6 B7]]]]]].
  repeat split; congruence.
Qed.

Lemma ui_step_same (self : scope) (w : world) (ev : ui_event) :
  same_env w (snd (ui_step self w ev))
  /\ same_setup self (fst (ui_step self w ev)).
Proof.
  destruct ev as [indata status | val | val | ]; cbn [ui_step].
  - destruct indata as [| f r].
    + destruct status; split; repeat split.
    + destruct (put_nowait _ _); destruct status; split; repeat split.
  - split; [apply same_env_save | repeat split].
  - split; [apply same_env_save | repeat split].
  - destruct (get _) as [[b q] |]; split; repeat split.
Qed.

Lemma ui_steps_same (evs : list ui_event) (self : scope) (w : world) :
  same_env w (snd (ui_steps evs self w))
  /\ same_setup self (fst (ui_steps evs self w)).
Proof.
  revert self w. induction evs as [| ev evs IH]; intros self w.
  - split; repeat split.
  - rewrite ui_steps_cons.
    destruct (ui_step_same self w ev) as [E1 S1].
    destruct (IH (fst (ui_step self w ev)) (snd (ui_step self w ev))) as [E2 S2].
    split; [exact (same_env_trans _ _ _ E1 E2) |].
    unfold same_setup in *.
    destruct S1 as [A1 [A2 [A3 A4]]]. destruct S2 as [B1 [B2 [B3 B4]]].
    repeat split; congruence.
Qed.

Lemma ui_step_gain (self : scope) (w : world) (ev : ui_event) :
  self_gain (fst (ui_step self w ev)) = last_gain (self_gain self) [ev]
  /\ self_smoothing (fst (ui_step self w ev))
     = last_smoothing (self_smoothing self) [ev].
Proof.
  destruct ev as [indata status | val | val | ]; cbn [ui_step last_gain last_smoothing].
  - destruct indata as [| f r]; [split; reflexivity |].
    destruct (put_nowait _ _); split; reflexivity.
  - split; reflexivity.
  - split; reflexivity.
  - destruct (get _) as [[b q] |]; split; reflexivity.
Qed.

Lemma ui_steps_gain (evs : list ui_event) (self : scope) (w : world) :
  self_gain (fst (ui_steps evs self w)) = last_gain (self_gain self) evs
  /\ self_smoothing (fst (ui_steps evs self w))
     = last_smoothing (self_smoothing self) evs.
Proof.
  revert self w. induction evs as [| ev evs IH]; intros self w.
  - split; reflexivity.
  - rewrite ui_steps_cons.
    destruct (IH (fst (ui_step self w ev)) (snd (ui_step self w ev))) as [G S].
    destruct (ui_step_gain self w ev) as [G1 S1].
    rewrite G, S, G1, S1.
    destruct ev; split; reflexivity.
Qed.

(** The trace only grows; the saves and the draws among the new events. *)
Lemma ui_step_trace (self : scope) (w : world) (ev : ui_event) :
  exists t,
    trace (snd (ui_step self w ev)) = (trace w ++ t)%list
    /\ List.length (filter is_save_event t)
       = (if is_slider ev then 1 else 0)%nat
    /\ draws t = match ev with
                 | RenderTick =>
                     match items (self_audio_queue self) with
                     | b :: _ => [b]
                     | [] => []
                     end
                 | _ => []
                 end.
Proof.
  destruct ev as [indata status | val | val | ]; cbn [ui_step is_slider].
  - destruct indata as [| f r].
    + destruct status; cbn [snd]; rewrite ?emit_emit; eexists;
        (split; [reflexivity | split; reflexivity]).
    + destruct (put_nowait _ _); destruct status; cbn [snd];
        first [ exists []; rewrite app_nil_r; split; [reflexivity | split; reflexivity]
              | eexists; split; [reflexivity | split; reflexivity] ].
  - rewrite save_config_world. cbn [snd].
    destruct (writable w); eexists; (split; [reflexivity | split; reflexivity]).
  - rewrite save_config_world. cbn [snd].
    destruct (writable w); eexists; (split; [reflexivity | split; reflexivity]).
  - unfold get. destruct (items (self_audio_queue self)) as [| b r]; cbn [snd].
    + exists []. rewrite app_nil_r. split; [reflexivity | split; reflexivity].
    + eexists. split; [reflexivity | split; reflexivity].
Qed.

Lemma filter_length_app {A} (f : A -> bool) (l1 l2 : list A) :
  List.length (filter f (l1 ++ l2))
  = (List.length (filter f l1) + List.length (filter f l2))%nat.
Proof. rewrite filter_app, length_app. reflexivity. Qed.

Lemma ui_steps_saves (evs : list ui_event) (self : scope) (w : world) :
  exists t,
    trace (snd (ui_steps evs self w)) = (trace w ++ t)%list
    /\ List.length (filter is_save_event t) = List.length (filter is_slider evs).
Proof.
  revert self w. induction evs as [| ev evs IH]; intros self w.
  - exists []. rewrite app_nil_r. split; reflexivity.
  - rewrite ui_steps_cons.
    destruct (ui_step_trace self w ev) as [t1 [H1 [C1 _]]].
    destruct (IH (fst (ui_step self w ev)) (snd (ui_step self w ev)))
      as [t2 [H2 C2]].
    exists (t1 ++ t2)%list. split.
    + rewrite H2, H1, app_assoc. reflexivity.
    + rewrite filter_length_app, C1, C2. cbn [filter].
      destruct (is_slider ev); reflexivity.
Qed.

(** X3: whenever [run] is called, it returns; the number of calls of
    [save_config] it makes is one, at the end, plus one for each move of a
    slider while the stream was open (none when the stream failed to
    open). *)
Theorem run_save_count (self : scope) (w : world) :
  exists self' w' t,
    run self w = (Ok self', w')
    /\ trace w' = (trace w ++ t)%list
    /\ List.length (filter is_save_event t)
       = (match stream_error w with
          | Some _ => 0
          | None => List.length (filter is_slider (session w))
          end + 1)%nat.
Proof.
  rewrite run_eq. destruct (stream_error w) as [e |].
  - rewrite save_config_world. cbn [snd writable emit].
    destruct (writable w); eexists; eexists; eexists;
      (split; [reflexivity |]); cbn [trace emit set_config_file];
      rewrite <- app_assoc; (split; [reflexivity | reflexivity]).
  - cbn zeta.
    destruct (ui_steps_saves (session w) self (emit [MsgStarting; ShowWindow] w))
      as [t [Ht Hc]].
    set (sw := ui_steps (session w) self (emit [MsgStarting; ShowWindow] w)) in *.
    rewrite save_config_world. cbn [snd].
    destruct (writable (snd sw)); eexists; eexists; eexists;
      (split; [reflexivity |]); cbn [trace emit set_config_file];
      rewrite Ht; cbn [trace emit]; rewrite <- !app_assoc;
      (split; [reflexivity |]);
      rewrite !filter_length_app, Hc; cbn; lia.
Qed.


Lemma save_config_file (c : settings) (w : world) :
  config_file (snd (save_config c w))
  = if writable w then Some (Doc (settings_doc c)) else config_file w.
Proof. rewrite save_config_world. cbn [snd]. destruct (writable w); reflexivity. Qed.

(** What [run] does to the object and the world. *)
Lemma run_effect (self : scope) (w : world) :
  exists self' w',
    run self w = (Ok self', w')
    /\ same_setup self self'
    /\ self_gain self'
       = match stream_error w with
         | Some _ => self_gain self
         | None => last_gain (self_gain self) (session w)
         end
    /\ self_smoothing self'
       = match stream_error w with
         | Some _ => self_smoothing self
         | None => last_smoothing (self_smoothing self) (session w)
         end
    /\ same_env w w'
    /\ config_file w'
       = if writable w
         then Some (Doc (settings_doc (current_settings self')))
         else config_file w.
Proof.
  rewrite run_eq. destruct (stream_error w) as [e |].
  - eexists. eexists. split; [reflexivity |].
    split; [repeat split |]. split; [reflexivity |]. split; [reflexivity |].
    split.
    + exact (same_env_trans _ _ _ (same_env_emit _ w) (same_env_save _ _)).
    + rewrite save_config_file. reflexivity.
  - cbn zeta.
    set (w0 := emit [MsgStarting; ShowWindow] w).
    destruct (ui_steps_same (session w) self w0) as [He Hs].
    destruct (ui_steps_gain (session w) self w0) as [Hg Hm].
    set (sw := ui_steps (session w) self w0) in *.
    eexists. eexists. split; [reflexivity |].
    split; [exact Hs |]. split; [exact Hg |]. split; [exact Hm |].
    split.
    + exact (same_env_trans _ _ _ (same_env_emit _ w)
               (same_env_trans _ _ _ He (same_env_save _ _))).
    + rewrite save_config_file.
      destruct He as [Hw _]. rewrite Hw. cbn [writable w0 emit].
      destruct (writable w) eqn:E; [reflexivity |].
      (* nothing could be written during the session either *)
      clear - E. subst sw.
      assert (H : forall evs self w1,
                 writable w1 = false ->
                 config_file (snd (ui_steps evs self w1)) = config_file w1).
      { intro evs. induction evs as [| ev evs IH]; intros s1 w1 Hw1;
          [reflexivity |].
        rewrite ui_steps_cons.
        destruct (ui_step_same s1 w1 ev) as [[Hw2 _] _].
        rewrite IH by congruence.
        destruct ev as [indata status | val | val | ]; cbn [ui_step].
        - destruct indata as [| f r]; [destruct status; reflexivity |].
          destruct (put_nowait _ _); destruct status; reflexivity.
        - cbn [snd]. rewrite save_config_file, Hw1. reflexivity.
        - cbn [snd]. rewrite save_config_file, Hw1. reflexivity.
        - destruct (get _) as [[b q] |]; reflexivity. }
      rewrite H by exact E. reflexivity.
Qed.

(** X4: [run] always returns.  The object it returns has the device, sample
    rate, block size and loaded settings it started with; its gain and
    smoothing are the values of the last slider moves of the session (the
    initial ones when there was none, or when the stream failed to open).
    Of the world only the settings file and the trace change: a writable
    file holds the final device, gain and smoothing, a file that cannot be
    written is as it was. *)
Theorem run_persists_final (self : scope) (w : world) :
  exists self' w',
    run self w = (Ok self', w')
    /\ same_setup self self'
    /\ self_gain self'
       = match stream_error w with
         | Some _ => self_gain self
         | None => last_gain (self_gain self) (session w)
         end
    /\ self_smoothing self'
       = match stream_error w with
         | Some _ => self_smoothing self
         | None => last_smoothing (self_smoothing self) (session w)
         end
    /\ same_env w w'
    /\ config_file w'
       = if writable w
         then Some (Doc (settings_doc (current_settings self')))
         else config_file w.
Proof. exact (run_effect self w). Qed.

Lemma last_gain_no_slider (evs : list ui_event) (g : spec_float) :
  existsb is_slider evs = false -> last_gain g evs = g.
Proof.
  induction evs as [| ev evs IH]; [reflexivity |].
  destruct ev; cbn; try discriminate; exact IH.
Qed.

Lemma last_smoothing_no_slider (evs : list ui_event) (s : spec_float) :
  existsb is_slider evs = false -> last_smoothing s evs = s.
Proof.
  induction evs as [| ev evs IH]; [reflexivity |].
  destruct ev; cbn; try discriminate; exact IH.
Qed.

Lemma ui_steps_no_slider_file (evs : list ui_event) (self : scope) (w : world) :
  existsb is_slider evs = false ->
  config_file (snd (ui_steps evs self w)) = config_file w.
Proof.
  revert self w. induction evs as [| ev evs IH]; intros self w H; [reflexivity |].
  rewrite ui_steps_cons.
  destruct ev as [indata status | val | val | ]; cbn in H; try discriminate;
    rewrite (IH _ _ H); cbn [ui_step].
  - destruct indata as [| f r]; [destruct status; reflexivity |].
    destruct (put_nowait _ _); destruct status; reflexivity.
  - destruct (get _) as [[b q] |]; reflexivity.
Qed.

(** X5: every move of a slider is persisted at once: when a slider was
    moved during the events [evs] and the settings file can be written,
    the file holds the current device, gain and smoothing when the render
    loop ends, before the save of the shutdown. *)
Theorem slider_moves_persisted (evs : list ui_event) (self : scope) (w : world)
    (Hmoved : existsb is_slider evs = true)
    (Hw : writable w = true) :
  exists self' w',
    render_loop self evs w = (Ok self', w')
    /\ config_file w' = Some (Doc (settings_doc (current_settings self'))).
Proof.
  rewrite render_loop_steps. eexists. eexists. split; [reflexivity |].
  revert self w Hmoved Hw. induction evs as [| ev evs IH]; intros self w Hm Hw;
    [discriminate Hm |].
  rewrite ui_steps_cons.
  destruct (ui_step_same self w ev) as [[Hw1 _] _].
  destruct (existsb is_slider evs) eqn:Hrest.
  - apply IH; [reflexivity | congruence].
  - cbn in Hm. rewrite Hrest, orb_false_r in Hm.
    rewrite (ui_steps_no_slider_file evs _ _ Hrest).
    destruct (ui_steps_same evs (fst (ui_step self w ev)) (snd (ui_step self w ev)))
      as [_ [_ [_ [Hd _]]]].
    destruct (ui_steps_gain evs (fst (ui_step self w ev)) (snd (ui_step self w ev)))
      as [Hg Hs].
    rewrite (last_gain_no_slider evs _ Hrest) in Hg.
    rewrite (last_smoothing_no_slider evs _ Hrest) in Hs.
    unfold current_settings, settings_doc. cbn [device_index gain smoothing].
    rewrite Hd, Hg, Hs.
    destruct ev as [indata status | val | val | ]; try discriminate Hm;
      cbn [ui_step fst snd]; rewrite save_config_file, Hw; reflexivity.
Qed.

(** X6: every waveform drawn during a session is a block the callback
    built: it is not empty and each of its samples is NaN or in
    [-1.0, 1.0], provided the blocks already queued when the loop starts
    are such blocks. *)
Theorem drawn_blocks_clamped (evs : list ui_event) (self : scope) (w : world)
    (Hq : Forall block_ok (items (self_audio_queue self))) :
  exists self' w' t,
    render_loop self evs w = (Ok self', w')
    /\ trace w' = (trace w ++ t)%list
    /\ Forall block_ok (draws t)
    /\ Forall block_ok (items (self_audio_queue self')).
Proof.
  rewrite render_loop_steps.
  revert self w Hq. induction evs as [| ev evs IH]; intros self w Hq.
  - exists self, w, []. rewrite app_nil_r.
    split; [reflexivity | split; [reflexivity | split; [constructor | exact Hq]]].
  - rewrite ui_steps_cons.
    destruct (ui_step_trace self w ev) as [t1 [Ht1 [_ Hd1]]].
    assert (Hstep : Forall block_ok (draws t1)
                    /\ Forall block_ok
                         (items (self_audio_queue (fst (ui_step self w ev))))).
    { rewrite Hd1.
      destruct ev as [indata status | val | val | ]; cbn [ui_step].
      - split; [constructor |].
        destruct indata as [| f r]; [exact Hq |].
        destruct (put_nowait _ _) as [q |] eqn:Hp; [| exact Hq].
        cbn. apply put_nowait_appends in Hp. destruct Hp as [Hi _]. rewrite Hi.
        apply Forall_app. split; [exact Hq |].
        constructor; [apply gained_block_ok | constructor].
      - split; [constructor | exact Hq].
      - split; [constructor | exact Hq].
      - unfold get.
        destruct (items (self_audio_queue self)) as [| b r] eqn:Hi.
        + split; [constructor |]. cbn. rewrite Hi. constructor.
        + inversion Hq; subst.
          split; [constructor; [assumption | constructor] |]. cbn. assumption. }
    destruct Hstep as [Hd Hq1].
    destruct (IH _ (snd (ui_step self w ev)) Hq1) as [self' [w' [t2 [Hr [Ht2 [Hd2 Hq2]]]]]].
    exists self', w', (t1 ++ t2)%list.
    split; [exact Hr |].
    split; [rewrite Ht2, Ht1, app_assoc; reflexivity |].
    split; [rewrite draws_app; apply Forall_app; split; assumption | exact Hq2].
Qed.


(** X8: the capture callback never raises and touches nothing but the
    queue and the trace.  An empty delivery logs the warning and hands
    nothing over; a delivery that is not empty and finds room in the queue
    appends one block at the tail, with one sample for each frame. *)
Theorem audio_callback_effect (self : scope) (indata : list frame)
    (status : bool) (w : world) :
  let q := self_audio_queue self in
  let w1 := if status then emit [MsgStatus] w else w in
  (indata = [] ->
     audio_callback self indata status w = (Ok self, emit [MsgNoAudio] w1))
  /\ (indata <> [] -> maxsize q = 10 -> qsize q < 10 ->
     audio_callback self indata status w
     = (Ok (set_audio_queue
              {| maxsize := 10;
                 items := items q ++ [gained_block (self_gain self) indata] |}
              self), w1)
     /\ List.length (gained_block (self_gain self) indata) = List.length indata)
  /\ (exists self',
        fst (audio_callback self indata status w) = Ok self'
        /\ same_setup self self'
        /\ self_gain self' = self_gain self
        /\ self_smoothing self' = self_smoothing self)
  /\ same_env w (snd (audio_callback self indata status w))
  /\ config_file (snd (audio_callback self indata status w)) = config_file w.
Proof.
  intros q w1. rewrite audio_callback_eq. cbn zeta. fold w1. fold q.
  assert (Hw1 : same_env w w1 /\ config_file w1 = config_file w)
    by (subst w1; destruct status; split; repeat split).
  destruct Hw1 as [He Hf].
  split; [intro H; subst indata; reflexivity |].
  split.
  { intros Hne Hm Hs.
    destruct indata as [| f r]; [contradiction |].
    rewrite (put_nowait_room q _ Hm Hs).
    split; [reflexivity | apply gained_block_length]. }
  destruct indata as [| f r].
  - split; [exists self; repeat split |].
    split; [| exact Hf].
    exact (same_env_trans _ _ _ He (same_env_emit _ w1)).
  - destruct (put_nowait q _) as [q' |]; cbn [fst snd].
    + split; [eexists; repeat split |]. split; assumption.
    + split; [exists self; repeat split |]. split; assumption.
Qed.

(** ** More on the settings store *)

Lemma load_after_save (s : settings) (w : world) :
  config_file w = Some (Doc (settings_doc s)) ->
  load_config w = (Ok (Some s), w).
Proof.
  intro H. apply load_config_ok.
  - unfold file_exists. rewrite H. reflexivity.
  - unfold read_settings, bind, read_json, lift, ret. rewrite H.
    destruct s; reflexivity.
Qed.


(** X9: loading is idempotent: when [load_config] has returned, a second
    call returns the same settings and changes nothing, not even the
    trace; a corrupt file is reported and removed once only. *)
Theorem load_config_idempotent (w w1 : world) (c : config)
    (Hload : load_config w = (Ok c, w1)) :
  load_config w1 = (Ok c, w1).
Proof.
  destruct (file_exists w) eqn:Hf.
  - destruct (fst (read_settings w)) as [c0 | e] eqn:Hr.
    + rewrite (load_config_ok w c0 Hf Hr) in Hload. inversion Hload; subst.
      exact (load_config_ok w1 c Hf Hr).
    + rewrite (load_config_on_corrupt w e Hf Hr) in Hload.
      destruct (removable w); [| discriminate Hload].
      inversion Hload; subst. apply load_config_absent. reflexivity.
  - unfold file_exists in Hf. destruct (config_file w) eqn:Hc; [discriminate |].
    rewrite (load_config_absent w Hc) in Hload. inversion Hload; subst.
    exact (load_config_absent w1 Hc).
Qed.

Lemma any_eq_not_none (v : pyval) (valid : list (Z * string)) :
  any_eq v valid = true -> is_none v = false.
Proof.
  intro H. destruct v; try reflexivity.
  apply any_eq_witness in H. destruct H as [i [_ H]]. discriminate H.
Qed.

(** X10: settings survive a restart.  After any session on a writable
    settings file, with a device that is eligible, the next startup loads
    the gain and the smoothing the session ended with and takes the same
    device without prompting or reading input. *)
Theorem restart_restores (bs : Z) (self : scope) (w : world)
    (Hw : writable w = true)
    (Hdev : any_eq (self_device self) (valid_devices (devices w)) = true) :
  exists self1 w1 self2 w2,
    run self w = (Ok self1, w1)
    /\ CRT_Oscilloscope_init bs w1 = (Ok self2, w2)
    /\ self_device self2 = self_device self1
    /\ self_gain self2 = self_gain self1
    /\ self_smoothing self2 = self_smoothing self1
    /\ stdin w2 = stdin w1
    /\ exists t,
         trace w2 = (trace w1 ++ MsgUsingSaved (self_device self1) :: t)%list
         /\ existsb (fun ev => match ev with Prompt _ => true | _ => false end) t
            = false.
Proof.
  destruct (run_effect self w) as [self1 [w1 [Hr [Hs [_ [_ [He Hf]]]]]]].
  rewrite Hw in Hf.
  destruct Hs as [_ [_ [Hd _]]].
  destruct He as [_ [_ [Hdevs _]]].
  pose proof (load_after_save (current_settings self1) w1 Hf) as Hl.
  pose proof (init_after_load bs w1 _ Hl) as Hi.
  cbn [config_get_device_index config_get_gain config_get_smoothing
       current_settings device_index gain smoothing] in Hi.
  assert (Hdev1 : any_eq (self_device self1) (valid_devices (devices w1)) = true)
    by (rewrite Hd, Hdevs; exact Hdev).
  destruct (valid_devices (devices w1)) as [| [d0 nm] rest] eqn:Hv;
    [discriminate Hdev1 |].
  assert (Hg : get_device (self_device self1) w1
               = (Ok (self_device self1), emit [MsgUsingSaved (self_device self1)] w1)).
  { apply (get_device_saved _ w1 d0 nm rest Hv).
    - exact (any_eq_not_none _ _ Hdev1).
    - rewrite Hv. exact Hdev1. }
  rewrite Hg in Hi. cbn [device_info emit] in Hi.
  exists self1, w1.
  destruct (device_info w1); eexists; eexists;
    (split; [exact Hr |]); (split; [exact Hi |]);
    do 4 (split; [reflexivity |]).
  - exists []. split; reflexivity.
  - eexists. cbn [trace emit]. rewrite <- app_assoc. split; reflexivity.
Qed.


(** ** More on device selection *)

Lemma enumerate_from_nth {A} (l : list A) (k : Z) (n : nat) (x : A) :
  nth_error l n = Some x -> In (k + Z.of_nat n, x) (enumerate_from k l).
Proof.
  revert k n. induction l as [| a l IH]; intros k n H.
  - destruct n; discriminate H.
  - destruct n as [| n]; cbn in H.
    + inversion H; subst. left. f_equal. lia.
    + right. replace (k + Z.of_nat (S n)) with ((k + 1) + Z.of_nat n) by lia.
      apply IH. exact H.
Qed.

Lemma valid_devices_complete (ds : list device) (n : nat) (d : device) :
  nth_error ds n = Some d -> 0 < max_input_channels d ->
  In (Z.of_nat n, name d) (valid_devices ds).
Proof.
  intros Hn Hc. unfold valid_devices.
  apply in_map_iff. exists (Z.of_nat n, d). split; [reflexivity |].
  apply filter_In. split.
  - exact (enumerate_from_nth ds 0 n d Hn).
  - cbn. apply Z.ltb_lt. exact Hc.
Qed.

Lemma filtered_enumerate_sorted {A} (f : Z * A -> bool) (l : list A) (k : Z) :
  StronglySorted Z.lt (map fst (filter f (enumerate_from k l)))
  /\ Forall (fun i => k <= i) (map fst (filter f (enumerate_from k l))).
Proof.
  revert k. induction l as [| a l IH]; intro k.
  - split; constructor.
  - destruct (IH (k + 1)) as [Hs Hb].
    assert (Hb' : Forall (fun i => k <= i)
                    (map fst (filter f (enumerate_from (k + 1) l)))).
    { eapply Forall_impl; [| exact Hb]. cbn. intros; lia. }
    change (enumerate_from k (a :: l)) with ((k, a) :: enumerate_from (k + 1) l).
    cbn [filter]. destruct (f (k, a)); [| split; assumption].
    cbn [map fst]. split.
    + constructor; [exact Hs |].
      eapply Forall_impl; [| exact Hb]. cbn. intros; lia.
    + constructor; [lia | exact Hb'].
Qed.

(** X11: the eligible list is exact and ordered: it holds the pair
    [(i, name)] exactly when entry [i] of the device table has that name
    and more than zero input channels, and its indices are strictly
    increasing, so that the default offered at the prompt, the first of
    them, is the smallest eligible index. *)
Theorem valid_devices_exact (ds : list device) :
  (forall i nm,
     In (i, nm) (valid_devices ds)
     <-> 0 <= i
         /\ exists d, nth_error ds (Z.to_nat i) = Some d
                      /\ 0 < max_input_channels d /\ name d = nm)
  /\ StronglySorted Z.lt (map fst (valid_devices ds))
  /\ (forall d0 nm rest,
        valid_devices ds = (d0, nm) :: rest ->
        Forall (fun i => d0 < i) (map fst rest)).
Proof.
  assert (Hsorted : StronglySorted Z.lt (map fst (valid_devices ds))).
  { unfold valid_devices. rewrite map_map. cbn [fst].
    apply (filtered_enumerate_sorted _ ds 0). }
  split; [| split; [exact Hsorted |]].
  - intros i nm. split.
    + unfold valid_devices. intro H.
      apply in_map_iff in H. destruct H as [[j d] [Hp Hin]].
      cbn in Hp. inversion Hp; subst.
      apply filter_In in Hin. destruct Hin as [Hin Hch]. cbn in Hch.
      apply enumerate_from_In in Hin. destruct Hin as [Hle Hnth].
      rewrite Z.sub_0_r in Hnth.
      split; [exact Hle |]. exists d.
      split; [exact Hnth | split; [apply Z.ltb_lt; exact Hch | reflexivity]].
    + intros [Hi [d [Hnth [Hch Hnm]]]]. subst nm.
      rewrite <- (Z2Nat.id i Hi). apply valid_devices_complete; assumption.
  - intros d0 nm rest Hv. rewrite Hv in Hsorted. cbn [map fst] in Hsorted.
    inversion Hsorted; subst. assumption.
Qed.

Lemma valid_devices_nil (ds : list device) :
  valid_devices ds = [] <-> Forall (fun d => max_input_channels d <= 0) ds.
Proof.
  split.
  - intro Hv. apply Forall_forall. intros d Hd.
    destruct (Z_le_gt_dec (max_input_channels d) 0) as [H | H]; [exact H |].
    apply In_nth_error in Hd. destruct Hd as [n Hn].
    assert (Hin : In (Z.of_nat n, name d) (valid_devices ds))
      by (apply valid_devices_complete; [exact Hn | lia]).
    rewrite Hv in Hin. destruct Hin.
  - intro Hall. destruct (valid_devices ds) as [| [i nm] rest] eqn:Hv;
      [reflexivity |].
    assert (Hin : In i (map fst (valid_devices ds)))
      by (rewrite Hv; left; reflexivity).
    apply valid_devices_In in Hin. destruct Hin as [d [_ [Hnth Hch]]].
    apply nth_error_In in Hnth. rewrite Forall_forall in Hall.
    specialize (Hall d Hnth). lia.
Qed.

Lemma select_loop_raise (valid : list (Z * string)) (d0 : Z)
    (lines : list string) (w w' : world) (e : exn) :
  select_loop valid d0 lines w = (Raise e, w') -> e = EOFError.
Proof.
  revert w. induction lines as [| line rest IH]; intros w H; cbn in H.
  - inversion H. reflexivity.
  - destruct (if String.eqb line "" then Some d0 else int_of_str line) as [n |].
    + destruct (any_eq (PInt n) valid); [discriminate H | exact (IH _ H)].
    + exact (IH _ H).
Qed.

(** X12: [get_device] raises [RuntimeError] exactly when no device of the
    table has input channels; it then has printed nothing and read
    nothing, whatever the saved index. *)
Theorem get_device_no_inputs (saved : pyval) (w : world) :
  (fst (get_device saved w) = Raise RuntimeError
   <-> Forall (fun d => max_input_channels d <= 0) (devices w))
  /\ (Forall (fun d => max_input_channels d <= 0) (devices w) ->
      get_device saved w = (Raise RuntimeError, w)).
Proof.
  assert (Hnil : valid_devices (devices w) = [] ->
                 get_device saved w = (Raise RuntimeError, w)).
  { intro Hv. unfold get_device. rewrite Hv. reflexivity. }
  split; [split |].
  - intro H. apply valid_devices_nil.
    destruct (valid_devices (devices w)) as [| [d0 nm] rest] eqn:Hv;
      [reflexivity |].
    unfold get_device in H. rewrite Hv in H.
    destruct (negb (is_none saved) && any_eq saved ((d0, nm) :: rest));
      [discriminate H |].
    match type of H with
    | fst (select_loop ?v ?d ?l ?w0) = _ =>
        destruct (select_loop v d l w0) as [[x | e] w'] eqn:Hs
    end; [discriminate H |].
    apply select_loop_raise in Hs. cbn in H. congruence.
  - intro H. apply valid_devices_nil in H. rewrite (Hnil H). reflexivity.
  - intro H. apply Hnil, valid_devices_nil, H.
Qed.

Lemma emit_set_stdin (a : list event) (l : list string) (w : world) :
  emit a (set_stdin l w) = set_stdin l (emit a w).
Proof. reflexivity. Qed.

Lemma set_stdin_twice (l1 l2 : list string) (w : world) :
  set_stdin l1 (set_stdin l2 w) = set_stdin l1 w.
Proof. reflexivity. Qed.

Lemma set_stdin_same (w : world) : set_stdin (stdin w) w = w.
Proof. destruct w; reflexivity. Qed.

Lemma rejected_step (valid : list (Z * string)) (d0 : Z) (line : string)
    (rest : list string) (w : world) :
  rejected valid line = true ->
  select_loop valid d0 (line :: rest) w
  = select_loop valid d0 rest (set_stdin rest (emit (rejection_events d0 line) w)).
Proof.
  unfold rejected, rejection_events. intro H.
  apply andb_true_iff in H. destruct H as [Hne Hp].
  apply negb_true_iff in Hne. cbn [select_loop]. rewrite Hne.
  destruct (int_of_str line) as [n |].
  - apply negb_true_iff in Hp. rewrite Hp. reflexivity.
  - rewrite emit_set_stdin, emit_emit. reflexivity.
Qed.

Lemma select_loop_accept (valid : list (Z * string)) (d0 n : Z)
    (bad : list string) (good : string) (rest : list string) (w : world) :
  forallb (rejected valid) bad = true ->
  selects valid d0 good = Some n ->
  select_loop valid d0 (bad ++ good :: rest) w
  = (Ok (PInt n),
     set_stdin rest (emit (flat_map (rejection_events d0) bad ++ [Prompt d0]) w)).
Proof.
  intros Hbad Hgood. revert w.
  induction bad as [| b bad IH]; intro w.
  - cbn [app flat_map select_loop]. unfold selects in Hgood.
    destruct (if String.eqb good "" then Some d0 else int_of_str good) as [m |];
      [| discriminate Hgood].
    destruct (any_eq (PInt m) valid); [| discriminate Hgood].
    inversion Hgood; subst. reflexivity.
  - cbn [forallb] in Hbad. apply andb_true_iff in Hbad. destruct Hbad as [Hb Hbad].
    cbn [app]. rewrite (rejected_step valid d0 b _ w Hb), (IH Hbad).
    rewrite emit_set_stdin, set_stdin_twice, emit_emit.
    cbn [flat_map]. rewrite <- app_assoc. reflexivity.
Qed.

Lemma select_loop_eof (valid : list (Z * string)) (d0 : Z)
    (lines : list string) (w : world) :
  forallb (rejected valid) lines = true ->
  stdin w = lines ->
  select_loop valid d0 lines w
  = (Raise EOFError,
     set_stdin [] (emit (flat_map (rejection_events d0) lines ++ [Prompt d0]) w)).
Proof.
  revert w. induction lines as [| b lines IH]; intros w Hbad Hin.
  - cbn [select_loop flat_map app]. f_equal.
    rewrite <- (set_stdin_same (emit [Prompt d0] w)) at 1. cbn [stdin emit].
    rewrite Hin. reflexivity.
  - cbn [forallb] in Hbad. apply andb_true_iff in Hbad. destruct Hbad as [Hb Hbad].
    rewrite (rejected_step valid d0 b _ w Hb).
    rewrite (IH (set_stdin lines (emit (rejection_events d0 b) w)) Hbad eq_refl).
    rewrite emit_set_stdin, set_stdin_twice, emit_emit.
    cbn [flat_map]. rewrite <- app_assoc. reflexivity.
Qed.

(** X13: with no usable saved index, [get_device] returns the index of the
    first line that is accepted (an empty line stands for the default, the
    first eligible index): the rejected lines before it are consumed with
    one prompt each, and the message for those that are not numbers; the
    lines after it are left unread. *)
Theorem get_device_first_accepted (saved : pyval) (w : world) (d0 n : Z)
    (nm : string) (others : list (Z * string))
    (bad : list string) (good : string) (rest : list string)
    (Hvalid : valid_devices (devices w) = (d0, nm) :: others)
    (Hsaved : is_none saved = true
              \/ any_eq saved (valid_devices (devices w)) = false)
    (Hin : stdin w = (bad ++ good :: rest)%list)
    (Hbad : forallb (rejected (valid_devices (devices w))) bad = true)
    (Hgood : selects (valid_devices (devices w)) d0 good = Some n) :
  get_device saved w
  = (Ok (PInt n),
     set_stdin rest
       (emit ((MsgAvailable
               :: map (fun p => MsgDevice (fst p) (snd p))
                    (valid_devices (devices w)))
              ++ flat_map (rejection_events d0) bad ++ [Prompt d0]) w))
  /\ In n (map fst (valid_devices (devices w))).
Proof.
  split.
  - rewrite (get_device_prompt saved w d0 nm others Hvalid Hsaved), Hin.
    rewrite (select_loop_accept _ d0 n bad good rest _ Hbad Hgood).
    rewrite emit_emit. reflexivity.
  - unfold selects in Hgood.
    destruct (if String.eqb good "" then Some d0 else int_of_str good) as [m |];
      [| discriminate Hgood].
    destruct (any_eq (PInt m) (valid_devices (devices w))) eqn:Hm;
      [| discriminate Hgood].
    inversion Hgood; subst. apply any_eq_int. exact Hm.
Qed.

(** X14: with no usable saved index, when every line of the input is
    rejected, [get_device] prompts once more after the last line and
    raises [EOFError], which it does not catch: the selection loop has no
    other way out than an accepted line. *)
Theorem get_device_end_of_input (saved : pyval) (w : world) (d0 : Z)
    (nm : string) (others : list (Z * string))
    (Hvalid : valid_devices (devices w) = (d0, nm) :: others)
    (Hsaved : is_none saved = true
              \/ any_eq saved (valid_devices (devices w)) = false)
    (Hbad : forallb (rejected (valid_devices (devices w))) (stdin w) = true) :
  get_device saved w
  = (Raise EOFError,
     set_stdin []
       (emit ((MsgAvailable
               :: map (fun p => MsgDevice (fst p) (snd p))
                    (valid_devices (devices w)))
              ++ flat_map (rejection_events d0) (stdin w) ++ [Prompt d0]) w)).
Proof.
  rewrite (get_device_prompt saved w d0 nm others Hvalid Hsaved).
  rewrite (select_loop_eof _ d0 (stdin w)
             (emit (MsgAvailable
                    :: map (fun p => MsgDevice (fst p) (snd p))
                         (valid_devices (devices w))) w) Hbad eq_refl).
  rewrite emit_emit. reflexivity.
Qed.

(** X15: a saved value is used only when it is a number: a device index
    stored as a string, a list, an object or null equals no index, and
    [get_device] goes to the prompt. *)
Theorem saved_must_be_number (saved : pyval) (w : world) (d0 : Z)
    (nm : string) (others : list (Z * string))
    (Hvalid : valid_devices (devices w) = (d0, nm) :: others)
    (Hnum : is_number saved = false) :
  any_eq saved (valid_devices (devices w)) = false
  /\ get_device saved w
     = select_loop (valid_devices (devices w)) d0 (stdin w)
         (emit (MsgAvailable
                :: map (fun p => MsgDevice (fst p) (snd p))
                     (valid_devices (devices w))) w).
Proof.
  assert (Ha : any_eq saved (valid_devices (devices w)) = false).
  { destruct (any_eq saved (valid_devices (devices w))) eqn:E; [| reflexivity].
    apply any_eq_witness in E. destruct E as [i [_ E]].
    destruct saved; try discriminate Hnum; discriminate E. }
  split; [exact Ha |].
  exact (get_device_prompt saved w d0 nm others Hvalid (or_intror Ha)).
Qed.




(** X18: [load_config] does not validate what it loads: every dictionary
    [save_config] has written is loaded back as it is, whatever its device
    value and also with a gain or smoothing outside the range of the
    sliders, infinite or NaN; and saving what was loaded leaves the file as
    it is. *)
Theorem save_load_any (s : settings) (w : world) (Hw : writable w = true) :
  exists w1,
    save_config s w = (Ok tt, w1)
    /\ load_config w1 = (Ok (Some s), w1)
    /\ config_file (snd (save_config s w1)) = config_file w1.
Proof.
  rewrite save_config_world, Hw. eexists. split; [reflexivity |].
  split.
  - apply load_after_save. reflexivity.
  - rewrite save_config_file. cbn [writable emit set_config_file config_file].
    rewrite Hw. reflexivity.
Qed.

End Program.

(** ** Instances on sample data *)

Lemma handoff_queue_bounded_witness :
  let full := sample_scope {| maxsize := 10; items := repeat [f64_1_0] 10 |} in
  let ins := repeat sample_indata 11 in
  exists self w,
    CRT_Oscilloscope_init decimal_float decimal_int 2048
      (sample_world None true None [""]) = (Ok self, w)
    /\ maxsize (self_audio_queue full) = 10
    /\ qsize (self_audio_queue full) = 10
    /\ sample_indata <> []
    /\ List.length ins = 11%nat
    /\ Forall (fun indata => indata <> []) ins
    /\ self_audio_queue self = Queue_new 10
    /\ put_nowait (self_audio_queue full)
         (gained_block float32 (self_gain full) sample_indata) = None.
Proof.
  intros full ins.
  destruct (CRT_Oscilloscope_init decimal_float decimal_int 2048
              (sample_world None true None [""])) as [[self | e] w] eqn:Hinit;
    [| vm_compute in Hinit; discriminate Hinit].
  assert (Hdata : sample_indata <> []) by discriminate.
  assert (Hne : Forall (fun indata : list frame => indata <> []) ins)
    by (repeat constructor; discriminate).
  pose proof (handoff_queue_bounded decimal_float decimal_int float32 2048
                (sample_world None true None [""]) w self [RenderTick]
                full sample_indata false ins
                Hinit eq_refl eq_refl Hdata eq_refl Hne) as H.
  exists self, w.
  do 5 (split; [first [reflexivity | assumption] |]).
  split; [exact Hne |].
  split; [exact (proj1 H) |].
  exact (proj1 (proj2 (proj2 (proj2 H)))).
Defined.

Lemma stored_sample_clamped_witness :
  is_nan (np_mul float32 (np_cast float32 f64_0_6) (np_cast float32 f64_2_0)) = false
  /\ in_unit_range float32 (stored_sample float32 f64_2_0 (np_cast float32 f64_0_6))
     = true.
Proof.
  split; [reflexivity |].
  exact (proj1 (stored_sample_clamped float32 (np_cast float32 f64_0_6) f64_2_0
                  f64_1_0 eq_refl)).
Defined.

(** C2, as stated, fails: with the gain [inf], which [load_config] accepts
    from the settings file, a silent sample 0.0 is stored as NaN, which is
    not in [-1.0, 1.0]. *)
Lemma stored_sample_nan_counterexample :
  stored_sample float32 (S754_infinity false) (S754_zero false) = S754_nan
  /\ in_unit_range float32
       (stored_sample float32 (S754_infinity false) (S754_zero false)) = false
  /\ ~ (forall (d : dtype) (s g : spec_float),
          in_unit_range d (stored_sample d g s) = true).
Proof.
  split; [reflexivity | split; [reflexivity |]].
  intro H.
  specialize (H float32 (S754_zero false) (S754_infinity false)).
  discriminate H.
Qed.

Lemma save_load_roundtrip_witness :
  let w := sample_world None true None [] in
  let s := {| device_index := PInt 1; gain := f64_2_0; smoothing := f64_0_8 |} in
  (0 <= 1 /\ SFleb f64_0_5 f64_2_0 = true /\ SFleb f64_2_0 f64_50_0 = true
   /\ SFleb f64_0_0 f64_0_8 = true /\ SFleb f64_0_8 f64_0_99 = true
   /\ writable w = true)
  /\ exists w1 c,
       save_config s w = (Ok tt, w1)
       /\ load_config decimal_float w1 = (Ok c, w1)
       /\ c = Some s
       /\ config_py_eq c (Some s) = true.
Proof.
  intros w s.
  assert (Hd : 0 <= 1) by discriminate.
  split; [repeat split; first [exact Hd | reflexivity] |].
  exact (save_load_roundtrip decimal_float 1 f64_2_0 f64_0_8 w
           Hd eq_refl eq_refl eq_refl eq_refl eq_refl).
Defined.

Lemma load_config_missing_fields_witness :
  let kvs := [("gain", PInt 3)] in
  let w := sample_world (Some (Doc (PDict kvs))) true None [] in
  exists s,
    load_config decimal_float w = (Ok (Some s), w)
    /\ device_index s = PInt 0
    /\ gain s = S754_finite false 6755399441055744 (-51)
    /\ smoothing s = f64_0_8.
Proof.
  intros kvs w.
  destruct (load_config_missing_fields decimal_float kvs
              (S754_finite false 6755399441055744 (-51)) f64_0_8 w
              eq_refl eq_refl eq_refl) as [s [Hl [Hd [Hg [Hs _]]]]].
  exists s. repeat split; assumption.
Defined.

(** C4, as stated, fails: a record that parses and has no [device_index]
    field loads with the device index 0, not with an unset one; where
    device 0 can record, the startup then uses it without prompting. *)
Lemma load_config_device_default_counterexample :
  let kvs := [("gain", PFloat f64_2_0); ("smoothing", PFloat f64_0_5)] in
  let w := sample_world (Some (Doc (PDict kvs))) true None [] in
  assoc "device_index" kvs = None
  /\ (exists s,
        load_config decimal_float w = (Ok (Some s), w)
        /\ config_get_device_index (Some s) = PInt 0
        /\ config_get_device_index (Some s) <> PNone)
  /\ ~ (forall (kvs : list (string * pyval)) (w : world) (c : config),
          config_file w = Some (Doc (PDict kvs)) ->
          assoc "device_index" kvs = None ->
          fst (load_config decimal_float w) = Ok c ->
          config_get_device_index c = PNone).
Proof.
  intros kvs w.
  split; [reflexivity |].
  split.
  - eexists. split; [reflexivity |]. split; [reflexivity | discriminate].
  - intro H.
    specialize (H kvs w _ eq_refl eq_refl eq_refl).
    discriminate H.
Qed.

Lemma load_config_corrupt_recovers_witness :
  let w := sample_world (Some (Doc (PDict [("gain", PStr "loud")]))) true None [] in
  (file_exists w = true
   /\ fst (read_settings decimal_float w) = Raise ValueError
   /\ removable w = true)
  /\ exists w1,
       load_config decimal_float w = (Ok None, w1)
       /\ config_file w1 = None
       /\ load_config decimal_float w1 = (Ok None, w1).
Proof.
  intro w.
  split; [repeat split |].
  destruct (load_config_corrupt_recovers decimal_float w ValueError
              eq_refl eq_refl eq_refl) as [w1 [Hl [_ [_ [_ [Hf [_ Hn]]]]]]].
  exists w1. repeat split; assumption.
Defined.

(** C6, as stated, fails: when the corrupt record cannot be removed,
    [load_config] does not return the defaults but raises the error of the
    deletion, and the corrupt record is still there. *)
Lemma load_config_corrupt_counterexample :
  let w := sample_world (Some (Unreadable JSONDecodeError)) false None [] in
  malformed decimal_float (Unreadable JSONDecodeError) = true
  /\ fst (load_config decimal_float w) = Raise OSError
  /\ config_file (snd (load_config decimal_float w))
     = Some (Unreadable JSONDecodeError)
  /\ ~ (forall (w : world) (c : content),
          config_file w = Some c -> malformed decimal_float c = true ->
          exists w1, load_config decimal_float w = (Ok None, w1)
                     /\ config_file w1 = None).
Proof.
  intro w.
  split; [reflexivity | split; [reflexivity | split; [reflexivity |]]].
  intro H.
  destruct (H w _ eq_refl eq_refl) as [w1 [Hl _]].
  discriminate Hl.
Qed.

Lemma get_device_spec_witness :
  let w := sample_world None true None ["7"; "abc"; ""] in
  valid_devices (devices w) = [(1, "Microphone"); (2, "Line In")]
  /\ get_device decimal_int (PInt 2) w = (Ok (PInt 2), emit [MsgUsingSaved (PInt 2)] w)
  /\ (exists t, trace (snd (get_device decimal_int (PInt 0) w))
                = (trace w
                   ++ [MsgAvailable; MsgDevice 1 "Microphone"; MsgDevice 2 "Line In"]
                   ++ Prompt 1 :: t)%list)
  /\ fst (get_device decimal_int (PInt 0)
            (sample_world None true None ["2"; "1"])) = Ok (PInt 2).
Proof.
  intro w.
  pose proof (get_device_spec decimal_int (PInt 0)
                (sample_world None true None ["2"; "1"]) 1 "Microphone"
                [(2, "Line In")] eq_refl) as Ha.
  pose proof (get_device_spec decimal_int (PInt 2) w 1 "Microphone"
                [(2, "Line In")] eq_refl) as H2.
  pose proof (get_device_spec decimal_int (PInt 0) w 1 "Microphone"
                [(2, "Line In")] eq_refl) as H0.
  split; [reflexivity |].
  split.
  - exact (proj1 (proj1 H2 eq_refl eq_refl)).
  - split.
    + destruct (proj1 (proj2 (proj1 (proj2 H0) (or_intror eq_refl)))) as [t Ht].
      exists t. exact Ht.
    + assert (Hne : "2" <> "") by discriminate.
      rewrite (proj2 (proj2 (proj2 (proj2 (proj1 (proj2 Ha) (or_intror eq_refl)))))
                 "2" ["1"] 2 eq_refl Hne eq_refl (or_intror (or_introl eq_refl))).
      reflexivity.
Defined.

Lemma get_device_returns_eligible_witness :
  let w := sample_world None true None ["7"; "abc"; ""] in
  let r := get_device decimal_int PNone w in
  r = (Ok (PInt 1), snd r)
  /\ exists i d,
       py_eq (PInt 1) (PInt i) = true
       /\ In i (map fst (valid_devices (devices w)))
       /\ 0 <= i
       /\ nth_error (devices w) (Z.to_nat i) = Some d
       /\ 0 < max_input_channels d.
Proof.
  intros w r.
  assert (Hr : r = (Ok (PInt 1), snd r)) by reflexivity.
  split; [exact Hr |].
  exact (get_device_returns_eligible decimal_int PNone w (snd r) (PInt 1) Hr).
Defined.

Lemma load_config_no_file_witness :
  let w := sample_world None true None [""] in
  (config_file w = None
   /\ valid_devices (devices w) = [(1, "Microphone"); (2, "Line In")])
  /\ load_config decimal_float w = (Ok None, w)
  /\ exists t,
       trace (snd (CRT_Oscilloscope_init decimal_float decimal_int 2048 w))
       = (trace w
          ++ (MsgAvailable
              :: map (fun p => MsgDevice (fst p) (snd p)) (valid_devices (devices w)))
          ++ Prompt 1 :: t)%list.
Proof.
  intro w.
  pose proof (load_config_no_file decimal_float decimal_int 2048 w 1 "Microphone"
                [(2, "Line In")] eq_refl eq_refl) as H.
  split; [split; reflexivity |].
  split; [exact (proj1 H) |].
  exact (proj1 (proj2 (proj2 (proj2 (proj2 H))))).
Defined.

Lemma run_stream_open_fails_witness :
  let w := sample_world None true (Some PortAudioError) [] in
  let self := sample_scope (Queue_new 10) in
  stream_error w = Some PortAudioError
  /\ exists w',
       run float32 self w = (Ok self, w')
       /\ trace w' = [MsgStarting; MsgStreamError PortAudioError;
                      MsgTryDifferent; MsgSaved].
Proof.
  intros w self.
  split; [reflexivity |].
  destruct (run_stream_open_fails float32 self w PortAudioError eq_refl)
    as [w' [Hr [Ht _]]].
  exists w'. split; [exact Hr | exact Ht].
Defined.

(** ** Sample runs *)

(** No settings file, three lines typed: an index that is not eligible, a
    word, and an empty line, which takes the default. *)
Example startup_prompts :
  let r := CRT_Oscilloscope_init decimal_float decimal_int 2048
             (sample_world None true None ["0"; "mic"; ""]) in
  (match fst r with Ok self => Some (self_device self) | Raise _ => None end)
    = Some (PInt 1)
  /\ trace (snd r)
     = [MsgAvailable; MsgDevice 1 "Microphone"; MsgDevice 2 "Line In";
        Prompt 1; Prompt 1; MsgInvalidInput; Prompt 1].
Proof. split; reflexivity. Qed.

(** At the end of the input the prompt raises [EOFError]. *)
Example startup_end_of_input :
  fst (CRT_Oscilloscope_init decimal_float decimal_int 2048
         (sample_world None true None ["0"]))
  = Raise EOFError.
Proof. reflexivity. Qed.

(** A saved device that is still eligible is used without a prompt, and a
    saved gain given as an integer is coerced. *)
Example startup_saved_device :
  let doc := PDict [("device_index", PInt 2); ("gain", PInt 3)] in
  let r := CRT_Oscilloscope_init decimal_float decimal_int 2048
             (sample_world (Some (Doc doc)) true None []) in
  (match fst r with
   | Ok self => Some (self_device self, self_gain self, self_smoothing self)
   | Raise _ => None
   end)
    = Some (PInt 2, S754_finite false 6755399441055744 (-51), f64_0_8)
  /\ trace (snd r) = [MsgUsingSaved (PInt 2)].
Proof. split; reflexivity. Qed.

(** A session: two deliveries, one render iteration, a third delivery and
    two more iterations draw the three blocks in the order of arrival. *)
Example session_draws_in_order :
  let a := [(f64_0_6, [])] in
  let b := [(SFopp f64_0_3, [])] in
  let c := [(f64_0_0, [])] in
  let w := {| config_file := None; writable := true; removable := true;
              devices := sample_devices; device_info := Ok f64_44100;
              stream_error := None;
              session := [AudioIn a false; AudioIn b false; RenderTick;
                          AudioIn c false; RenderTick; RenderTick; RenderTick];
              stdin := []; trace := [] |} in
  trace (snd (run float64 (sample_scope (Queue_new 10)) w))
  = [MsgStarting; ShowWindow;
     Draw [f64_1_0];
     Draw [SFopp f64_0_6];
     Draw [f64_0_0];
     MsgSaved].
Proof. reflexivity. Qed.

(** A record with the gain [Infinity] loads, and a silent sample is then
    stored as NaN. *)
Example infinite_gain_loads :
  let doc := PDict [("gain", PFloat (S754_infinity false))] in
  let r := load_config decimal_float (sample_world (Some (Doc doc)) true None []) in
  (match fst r with
   | Ok c => Some (config_get_gain c)
   | Raise _ => None
   end) = Some (S754_infinity false)
  /\ gained_block float32 (S754_infinity false) [(f64_0_0, [])] = [S754_nan].
Proof. split; reflexivity. Qed.

(** ** Further instances on sample data *)

Lemma clamp_saturates_witness :
  SFltb (np_of_int float32 1) (np_cast float32 f64_2_0) = true
  /\ clamp float32 (np_cast float32 f64_2_0) = np_of_int float32 1.
Proof.
  split; [reflexivity |].
  exact (proj1 (proj2 (clamp_saturates float32 (np_cast float32 f64_2_0))) eq_refl).
Defined.

Lemma stored_sample_finite_in_range_witness :
  (is_finite_or_zero (np_cast float32 f64_0_6) = true
   /\ is_finite_or_zero (np_cast float32 f64_50_0) = true)
  /\ in_unit_range float32
       (stored_sample float32 f64_50_0 (np_cast float32 f64_0_6)) = true.
Proof.
  split; [split; reflexivity |].
  exact (stored_sample_finite_in_range float32 (np_cast float32 f64_0_6) f64_50_0
           eq_refl eq_refl).
Defined.

Lemma slider_moves_persisted_witness :
  let evs := [GainSlider f64_2_0; AudioIn sample_indata false] in
  let self := sample_scope (Queue_new 10) in
  let w := sample_world None true None [] in
  (existsb is_slider evs = true /\ writable w = true)
  /\ exists self' w',
       render_loop float32 self evs w = (Ok self', w')
       /\ config_file w' = Some (Doc (settings_doc (current_settings self'))).
Proof.
  intros evs self w.
  split; [split; reflexivity |].
  exact (slider_moves_persisted float32 evs self w eq_refl eq_refl).
Defined.

Lemma drawn_blocks_clamped_witness :
  let evs := [AudioIn sample_indata false; RenderTick] in
  let self := sample_scope (Queue_new 10) in
  let w := sample_world None true None [] in
  Forall (block_ok float32) (items (self_audio_queue self))
  /\ exists self' w' t,
       render_loop float32 self evs w = (Ok self', w')
       /\ trace w' = (trace w ++ t)%list
       /\ Forall (block_ok float32) (draws t)
       /\ Forall (block_ok float32) (items (self_audio_queue self')).
Proof.
  intros evs self w.
  assert (Hq : Forall (block_ok float32) (items (self_audio_queue self)))
    by constructor.
  split; [exact Hq |].
  exact (drawn_blocks_clamped float32 evs self w Hq).
Defined.

Lemma audio_callback_effect_witness :
  let self := sample_scope (Queue_new 10) in
  let w := sample_world None true None [] in
  (sample_indata <> [] /\ maxsize (self_audio_queue self) = 10
   /\ qsize (self_audio_queue self) < 10)
  /\ audio_callback float32 self sample_indata false w
     = (Ok (set_audio_queue
              {| maxsize := 10;
                 items := [gained_block float32 f64_2_0 sample_indata] |} self),
        w).
Proof.
  intros self w.
  assert (Hne : sample_indata <> []) by discriminate.
  split; [split; [exact Hne | split; reflexivity] |].
  exact (proj1 (proj1 (proj2 (audio_callback_effect float32 self sample_indata
                                false w))
                  Hne eq_refl eq_refl)).
Defined.

Lemma load_config_idempotent_witness :
  let w := sample_world (Some (Doc (PDict [("gain", PStr "loud")]))) true None [] in
  let r := load_config decimal_float w in
  r = (Ok None, snd r)
  /\ load_config decimal_float (snd r) = (Ok None, snd r).
Proof.
  intros w r.
  assert (Hr : r = (Ok None, snd r)) by reflexivity.
  split; [exact Hr |].
  exact (load_config_idempotent decimal_float w (snd r) None Hr).
Defined.

Lemma restart_restores_witness :
  let self := sample_scope (Queue_new 10) in
  let w := {| config_file := None; writable := true; removable := true;
              devices := sample_devices; device_info := Ok f64_44100;
              stream_error := None;
              session := [GainSlider f64_50_0; AudioIn sample_indata false];
              stdin := []; trace := [] |} in
  (writable w = true
   /\ any_eq (self_device self) (valid_devices (devices w)) = true)
  /\ exists self1 w1 self2 w2,
       run float32 self w = (Ok self1, w1)
       /\ CRT_Oscilloscope_init decimal_float decimal_int 2048 w1 = (Ok self2, w2)
       /\ self_device self2 = self_device self1
       /\ self_gain self2 = self_gain self1
       /\ self_smoothing self2 = self_smoothing self1.
Proof.
  intros self w.
  split; [split; reflexivity |].
  destruct (restart_restores decimal_float decimal_int float32 2048 self w
              eq_refl eq_refl)
    as [self1 [w1 [self2 [w2 [Hr [Hi [Hd [Hg [Hs _]]]]]]]]].
  exists self1, w1, self2, w2. repeat split; assumption.
Defined.

Lemma valid_devices_exact_witness :
  (0 <= 1
   /\ exists d, nth_error sample_devices (Z.to_nat 1) = Some d
                /\ 0 < max_input_channels d /\ name d = "Microphone")
  /\ In (1, "Microphone") (valid_devices sample_devices).
Proof.
  assert (H : 0 <= 1
              /\ exists d, nth_error sample_devices (Z.to_nat 1) = Some d
                           /\ 0 < max_input_channels d /\ name d = "Microphone").
  { split; [discriminate |]. eexists. split; [reflexivity |].
    split; reflexivity. }
  split; [exact H |].
  exact (proj2 (proj1 (valid_devices_exact sample_devices) 1 "Microphone") H).
Defined.

Lemma get_device_no_inputs_witness :
  let w := {| config_file := None; writable := true; removable := true;
              devices := [ {| name := "Speakers"; max_input_channels := 0 |} ];
              device_info := Ok f64_44100; stream_error := None; session := [];
              stdin := ["0"]; trace := [] |} in
  Forall (fun d => max_input_channels d <= 0) (devices w)
  /\ get_device decimal_int (PInt 0) w = (Raise RuntimeError, w).
Proof.
  intro w.
  assert (H : Forall (fun d => max_input_channels d <= 0) (devices w))
    by (repeat constructor; discriminate).
  split; [exact H |].
  exact (proj2 (get_device_no_inputs decimal_int (PInt 0) w) H).
Defined.

Lemma get_device_first_accepted_witness :
  let w := sample_world None true None ["7"; "abc"; "2"; "1"] in
  (valid_devices (devices w) = [(1, "Microphone"); (2, "Line In")]
   /\ stdin w = (["7"; "abc"] ++ "2" :: ["1"])%list
   /\ forallb (rejected decimal_int (valid_devices (devices w))) ["7"; "abc"] = true
   /\ selects decimal_int (valid_devices (devices w)) 1 "2" = Some 2)
  /\ fst (get_device decimal_int PNone w) = Ok (PInt 2)
  /\ stdin (snd (get_device decimal_int PNone w)) = ["1"].
Proof.
  intro w.
  split; [repeat split |].
  destruct (get_device_first_accepted decimal_int PNone w 1 2 "Microphone"
              [(2, "Line In")] ["7"; "abc"] "2" ["1"]
              eq_refl (or_introl eq_refl) eq_refl eq_refl eq_refl) as [H _].
  rewrite H. split; reflexivity.
Defined.

Lemma get_device_end_of_input_witness :
  let w := sample_world None true None ["7"; "abc"] in
  (valid_devices (devices w) = [(1, "Microphone"); (2, "Line In")]
   /\ forallb (rejected decimal_int (valid_devices (devices w))) (stdin w) = true)
  /\ fst (get_device decimal_int PNone w) = Raise EOFError.
Proof.
  intro w.
  split; [split; reflexivity |].
  rewrite (get_device_end_of_input decimal_int PNone w 1 "Microphone"
             [(2, "Line In")] eq_refl (or_introl eq_refl) eq_refl).
  reflexivity.
Defined.

Lemma saved_must_be_number_witness :
  let w := sample_world None true None [""] in
  (valid_devices (devices w) = [(1, "Microphone"); (2, "Line In")]
   /\ is_number (PStr "1") = false)
  /\ any_eq (PStr "1") (valid_devices (devices w)) = false.
Proof.
  intro w.
  split; [split; reflexivity |].
  exact (proj1 (saved_must_be_number decimal_int (PStr "1") w 1 "Microphone"
                  [(2, "Line In")] eq_refl eq_refl)).
Defined.


Lemma save_load_any_witness :
  let s := {| device_index := PStr "usb"; gain := S754_infinity false;
              smoothing := S754_nan |} in
  let w := sample_world None true None [] in
  writable w = true
  /\ exists w1,
       save_config s w = (Ok tt, w1)
       /\ load_config decimal_float w1 = (Ok (Some s), w1).
Proof.
  intros s w.
  split; [reflexivity |].
  destruct (save_load_any decimal_float s w eq_refl) as [w1 [Hs [Hl _]]].
  exists w1. split; assumption.
Defined.
